(** * Anime Opening Generator: orchestration and polling state machine

  A shallow embedding of the Express server (generation orchestrator,
  task registry, status endpoint) and of the React client's progress
  presenter, together with the properties of these that the
  specification states. *)

From Stdlib Require Import String Ascii List ZArith NArith Bool Lia DecimalString.
Import ListNotations.
Open Scope string_scope.

(* ===================================================================== *)
(** * JavaScript values *)
(* ===================================================================== *)

(** The values both programs handle are what [JSON.parse] produces out of a
  provider reply, extended with [undefined].  Numbers are only ever
  tested for truthiness, printed or passed along, so an integer stands
  for them.  A string holds the bytes of its text in UTF-8, a surrogate
  that stands alone taking three bytes. *)
#[warnings="-register-all"]
Inductive JSValue : Type :=
| JUndefined
| JNull
| JBool (b : bool)
| JNum (n : Z)
| JStr (s : string)
| JArr (items : list JSValue)
| JObj (fields : list (string * JSValue)).

(** A thrown [Error]; only its [message] is ever read. *)
Record JSError : Type := mkError { message : string }.

Inductive Result (A : Type) : Type :=
| Ok (a : A)
| Throw (e : JSError).
Arguments Ok {A} a.
Arguments Throw {A} e.

Module JS.

(** ToBoolean. *)
Definition truthy (v : JSValue) : bool :=
  match v with
  | JUndefined | JNull => false
  | JBool b => b
  | JNum n => negb (n =? 0)%Z
  | JStr s => negb (s =? "")
  | JArr _ | JObj _ => true
  end.

Definition nullish (v : JSValue) : bool :=
  match v with
  | JUndefined | JNull => true
  | _ => false
  end.

Definition is_undefined (v : JSValue) : bool :=
  match v with
  | JUndefined => true
  | _ => false
  end.

(** [a || b]; every right operand in the two programs is effect free. *)
Definition or (a b : JSValue) : JSValue :=
  if truthy a then a else b.

Fixpoint lookup (name : string) (fields : list (string * JSValue))
  : option JSValue :=
  match fields with
  | [] => None
  | (k, v) :: rest => if k =? name then Some v else lookup name rest
  end.

(** [v.name] on a value that is neither [null] nor [undefined].  The
    property names the programs read ([id], [task_id], [status], [image],
    [image_url], [data], [image_urls], [lyrics], [audio], [audio_file],
    [file_url], [url], [task], [video], [video_url], [error], [taskId],
    [videoUrl], [musicUrl]) are on no built-in prototype, so only an
    object can answer with something else than [undefined]. *)
Definition prop (v : JSValue) (name : string) : JSValue :=
  match v with
  | JObj fields =>
      match lookup name fields with
      | Some x => x
      | None => JUndefined
      end
  | _ => JUndefined
  end.

(** ** Printing a number *)

Definition digits (m : Z) : string := NilZero.string_of_int (Z.to_int m).

(** The Number nearest to the positive integer [m], ties going to the
    even significand; nothing when [m] is beyond every finite Number. *)
Definition nearest_number (m : Z) : option Z :=
  let b := Z.log2 m in
  if (b <=? 52)%Z then Some m
  else
    let shift := (b - 52)%Z in
    let q := Z.shiftr m shift in
    let r := (m - Z.shiftl q shift)%Z in
    let half := (2 ^ (shift - 1))%Z in
    let q' := if (half <? r)%Z || ((r =? half)%Z && Z.odd q)
              then (q + 1)%Z else q in
    let v := Z.shiftl q' shift in
    if (2 ^ 1024 <=? v)%Z then None else Some v.

(** Whether the decimal [c] reads back as the Number [v], for [v] from
    2^53 on: [c] lies between the midpoints to the Numbers next to [v],
    the midpoints themselves counting when the significand is even. *)
Definition reads_back (v c : Z) : bool :=
  let shift := (Z.log2 v - 52)%Z in
  let q := Z.shiftr v shift in
  let up := (2 ^ shift)%Z in
  let down := if (q =? 2 ^ 52)%Z then (2 ^ (shift - 1))%Z else up in
  let lo := (2 * v - down)%Z in
  let hi := (2 * v + up)%Z in
  ((lo <? 2 * c)%Z && (2 * c <? hi)%Z)
  || (Z.even q && ((2 * c =? lo)%Z || (2 * c =? hi)%Z)).

(** The decimals made of [k] digits and then zeros that read back as
    [v], each as its digits and its number of zeros; [size] is the
    number of digits of [v]. *)
Definition candidates (v size k : Z) : list (Z * Z) :=
  let try e :=
    if (e <? 0)%Z then []
    else
      let s := (v / 10 ^ e)%Z in
      filter (fun c => (10 ^ (k - 1) <=? fst c)%Z && (fst c <? 10 ^ k)%Z
                       && reads_back v (fst c * 10 ^ snd c))
             [(s, e); ((s + 1)%Z, e)] in
  (try (size - k)%Z ++ try (size - k + 1)%Z)%list.

Definition closest (v : Z) (cs : list (Z * Z)) : option (Z * Z) :=
  fold_left
    (fun best c =>
       match best with
       | None => Some c
       | Some b =>
           if (Z.abs (fst c * 10 ^ snd c - v)
               <? Z.abs (fst b * 10 ^ snd b - v))%Z
           then Some c else Some b
       end)
    cs None.

(** The shortest decimal that reads back as [v], the closest to [v]
    among those; seventeen digits always do. *)
Fixpoint shortest (v size k : Z) (fuel : nat) : Z * Z :=
  match fuel with
  | O => (v, 0%Z)
  | S rest =>
      match closest v (candidates v size k) with
      | Some c => c
      | None => shortest v size (k + 1)%Z rest
      end
  end.

Fixpoint zeros (n : nat) : string :=
  match n with
  | O => ""
  | S k => String "0" (zeros k)
  end.

(** Number::toString on a positive finite Number that is an integer:
    all its digits below 2^53; from there on the shortest decimal that
    reads back, written out in full up to 21 digits and with an exponent
    beyond. *)
Definition positive_to_string (v : Z) : string :=
  if (v <? 2 ^ 53)%Z then digits v
  else
    let size := Z.of_nat (String.length (digits v)) in
    let '(s, e) := shortest v size 1%Z 17 in
    let ds := digits s in
    let n := (Z.of_nat (String.length ds) + e)%Z in
    if (n <=? 21)%Z then ds ++ zeros (Z.to_nat e)
    else
      match ds with
      | String d "" => String d ("e+" ++ digits (n - 1))
      | String d more => String d ("." ++ more ++ "e+" ++ digits (n - 1))
      | "" => ""
      end.

(** ToString on the Number that the integer literal [n] parses to. *)
Definition number_to_string (n : Z) : string :=
  if (n =? 0)%Z then "0"
  else
    match nearest_number (Z.abs n) with
    | None => if (n <? 0)%Z then "-Infinity" else "Infinity"
    | Some v =>
        if (n <? 0)%Z then "-" ++ positive_to_string v
        else positive_to_string v
    end.

(** ToString, as [new Error(v)] applies it.  An array joins its elements
    with commas, [null] and [undefined] elements printing as nothing. *)
Fixpoint to_string (v : JSValue) : string :=
  match v with
  | JUndefined => "undefined"
  | JNull => "null"
  | JBool true => "true"
  | JBool false => "false"
  | JNum n => number_to_string n
  | JStr s => s
  | JArr items =>
      let element x := if nullish x then "" else to_string x in
      String.concat "," (map element items)
  | JObj _ => "[object Object]"
  end.

(** How a TypeError names [null] and [undefined]. *)
Definition nullish_name (v : JSValue) : string :=
  match v with
  | JNull => "null"
  | _ => "undefined"
  end.

(** [v.name]: a TypeError on [null] and [undefined]. *)
Definition member (v : JSValue) (name : string) : Result JSValue :=
  if nullish v
  then Throw (mkError ("Cannot read properties of " ++ nullish_name v
                         ++ " (reading '" ++ name ++ "')"))
  else Ok (prop v name).

(** [v?.name]. *)
Definition opt (v : JSValue) (name : string) : JSValue :=
  if nullish v then JUndefined else prop v name.

(** The first UTF-16 code unit of a text, as a text of its own: the
    first character, or the leading surrogate of a first character
    beyond U+FFFF (four bytes in UTF-8), which stands alone then. *)
Definition first_unit (s : string) : string :=
  match s with
  | String a (String b (String c (String d _))) =>
      let n := nat_of_ascii a in
      if Nat.ltb n 192 then String a ""
      else if Nat.ltb n 224 then String a (String b "")
      else if Nat.ltb n 240 then String a (String b (String c ""))
      else
        let h := (Nat.modulo n 8 * 256 + Nat.modulo (nat_of_ascii b) 64 * 4
                  + Nat.div (Nat.modulo (nat_of_ascii c) 64) 16 - 64)%nat in
        String (ascii_of_nat 237)
          (String (ascii_of_nat (160 + Nat.div h 64))
             (String (ascii_of_nat (128 + Nat.modulo h 64)) ""))
  | String a (String b (String c "")) =>
      let n := nat_of_ascii a in
      if Nat.ltb n 192 then String a ""
      else if Nat.ltb n 224 then String a (String b "")
      else s
  | String a (String b "") =>
      if Nat.ltb (nat_of_ascii a) 192 then String a "" else s
  | _ => s
  end.

(** [v?.[0]]: the first element of an array, the first code unit of a
    string, the property ["0"] of an object. *)
Definition opt0 (v : JSValue) : JSValue :=
  match v with
  | JArr items => hd JUndefined items
  | JStr (String c rest) => JStr (first_unit (String c rest))
  | JObj fields =>
      match lookup "0" fields with
      | Some x => x
      | None => JUndefined
      end
  | _ => JUndefined
  end.

(** [v === 'lit'] for a string literal. *)
Definition is_str (v : JSValue) (lit : string) : bool :=
  match v with
  | JStr s => s =? lit
  | _ => false
  end.

(** What [JSON.stringify] keeps of an object literal: a property whose
    value is [undefined] is left out. *)
Definition json (fields : list (string * JSValue)) : JSValue :=
  JObj (filter (fun kv => negb (is_undefined (snd kv))) fields).

(** SameValueZero, the key equality of [Map].  Primitives compare by
    value.  Objects and arrays compare by reference: every object that
    reaches a [Map] key here is the fresh result of parsing one provider
    reply, so it is identical to no other key and to no later lookup. *)
Definition same_value_zero (a b : JSValue) : bool :=
  match a, b with
  | JUndefined, JUndefined => true
  | JNull, JNull => true
  | JBool x, JBool y => Bool.eqb x y
  | JNum x, JNum y => (x =? y)%Z
  | JStr x, JStr y => x =? y
  | _, _ => false
  end.

(** [typeof v === 'string'] *)
Definition is_string (v : JSValue) : bool :=
  match v with
  | JStr _ => true
  | _ => false
  end.

(** The object [v] holds the property [name], with value [x]. *)
Definition has_field (v : JSValue) (name : string) (x : JSValue) : Prop :=
  match v with
  | JObj fields => lookup name fields = Some x
  | _ => False
  end.

End JS.

(* ===================================================================== *)
(** * The server *)
(* ===================================================================== *)

Module Server.

(** ** Upstream calls, timers and the log *)

Inductive Method : Type := POST | GET.

(** One authenticated call: [axios.post(url, data, {headers})] or
    [axios.get(url, {params, headers})]; [payload] is [data] or [params]. *)
Record Request : Type := mkRequest {
  method : Method;
  url : string;
  authorization : string;
  payload : JSValue
}.

(** What a call resolves to: [response.data], or the rejection (any
    non-2xx reply and any transport error). *)
Inductive Outcome : Type :=
| Responded (data : JSValue)
| Rejected (e : JSError).

(** The log keeps, with the clock in milliseconds, every timer armed and
    every call issued together with what it resolved to. *)
Inductive Event : Type :=
| Timer (at_ms : N) (delay : N)
| Call (at_ms : N) (request : Request) (outcome : Outcome).

(** ** The task registry *)

Inductive TaskStatus : Type := processing | success | failed.

Record GenerationTask : Type := mkTask {
  theme : string;
  imageUrl : JSValue;
  musicUrl : JSValue;
  lyrics : JSValue;
  status : TaskStatus;
  createdAt : N;
  videoUrl : JSValue
}.

(** [const tasks = new Map()]: entries in insertion order. *)
Definition Registry : Type := list (JSValue * GenerationTask).

(** [tasks.get(key)] *)
Fixpoint tasks_get (key : JSValue) (m : Registry) : option GenerationTask :=
  match m with
  | [] => None
  | (k, t) :: rest =>
      if JS.same_value_zero k key then Some t else tasks_get key rest
  end.

(** [tasks.set(key, t)]: an existing key keeps its place. *)
Fixpoint tasks_set (key : JSValue) (t : GenerationTask) (m : Registry)
  : Registry :=
  match m with
  | [] => [(key, t)]
  | (k, t0) :: rest =>
      if JS.same_value_zero k key then (k, t) :: rest
      else (k, t0) :: tasks_set key t rest
  end.

Record Response : Type := mkResponse {
  code : N;
  body : JSValue
}.

(** [req.file] and [req.body.theme] of the multipart form. *)
Record GenerateForm : Type := mkForm {
  file : option string;
  form_theme : string
}.

Section WithProvider.

(** The provider is any machine that answers a request, after some
    latency, out of a state of its own. *)
Context {PState : Type}.
Variable provider : PState -> Request -> Outcome * N * PState.

(** [process.env.MINIMAX_API_KEY || ''] *)
Variable MINIMAX_API_KEY : string.

Definition MINIMAX_BASE_URL : string := "https://api.minimax.io/v1".

Record World : Type := mkWorld {
  upstream : PState;
  now : N;
  log : list Event;
  tasks : Registry
}.

(** An [async] computation: it runs on the world and either returns or
    throws; what it did before throwing stays done. *)
Definition M (A : Type) : Type := World -> Result A * World.

Definition ret {A} (a : A) : M A := fun w => (Ok a, w).

Definition bind {A B} (c : M A) (k : A -> M B) : M B :=
  fun w =>
    match c w with
    | (Ok a, w') => k a w'
    | (Throw e, w') => (Throw e, w')
    end.

(** [try { c } catch (error) { h error }] *)
Definition try_catch {A} (c : M A) (h : JSError -> M A) : M A :=
  fun w =>
    match c w with
    | (Ok a, w') => (Ok a, w')
    | (Throw e, w') => h e w'
    end.

(** A synchronous expression that may throw. *)
Definition lift {A} (r : Result A) : M A := fun w => (r, w).

Notation "x <- c1 ;; c2" := (bind c1 (fun x => c2))
  (at level 61, c1 at next level, right associativity).
Notation "c1 ;; c2" := (bind c1 (fun _ => c2))
  (at level 61, right associativity).

(** [await new Promise(resolve => setTimeout(resolve, ms))]: the timer
    fires once its delay has passed. *)
Definition sleep (ms : N) : M unit :=
  fun w => (Ok tt, mkWorld (upstream w) (now w + ms)
                           (log w ++ [Timer (now w) ms]) (tasks w)).

(** [Date.now()] *)
Definition date_now : M N := fun w => (Ok (now w), w).

(** The world once a call has been answered. *)
Definition answered (w : World) (r : Request) (out : Outcome) (latency : N)
  (p' : PState) : World :=
  mkWorld p' (now w + latency) (log w ++ [Call (now w) r out]) (tasks w).

Definition call (r : Request) : M JSValue :=
  fun w =>
    match provider (upstream w) r with
    | (out, latency, p') =>
        match out with
        | Responded data => (Ok data, answered w r out latency p')
        | Rejected e => (Throw e, answered w r out latency p')
        end
    end.

Definition registry_get (key : JSValue) : M (option GenerationTask) :=
  fun w => (Ok (tasks_get key (tasks w)), w).

Definition registry_set (key : JSValue) (t : GenerationTask) : M unit :=
  fun w => (Ok tt, mkWorld (upstream w) (now w) (log w)
                           (tasks_set key t (tasks w))).


(** ** Remote provider client *)

Definition bearer : string := "Bearer " ++ MINIMAX_API_KEY.

Definition post_request (endpoint : string) (data : JSValue) : Request :=
  mkRequest POST (MINIMAX_BASE_URL ++ endpoint) bearer data.

Definition query_request (path : string) (taskId : JSValue) : Request :=
  mkRequest GET (MINIMAX_BASE_URL ++ path) bearer
            (JObj [("task_id", taskId)]).

Definition minimaxRequest (endpoint : string) (data : JSValue) : M JSValue :=
  call (post_request endpoint data).

Definition getDefaultLyrics (theme : string) : string :=
"[Intro]
(Oh~)
This is our story now
Let's begin tonight

[Verse 1]
In the darkness we stand together
Forever bound by destiny
The stars guide our way tonight
As we chase our dreams

[Pre-Chorus]
Feel the fire in our hearts
Nothing can tear us apart

[Chorus]
We are unstoppable
Together we shine so bright
With the power of our souls
We'll keep fighting through the night

[Verse 2]
Memories fade but we'll remember
Every moment that we've shared
The journey continues on
With hope we will persevere

[Bridge]
(One more time)
We rise again
(One more time)
Until the end

[Chorus]
We are unstoppable
Together we shine so bright
With the power of our souls
We'll keep fighting through the night

[Outro]
(This is our story...)
Our story begins now...".

Definition lyrics_payload (theme : string) : JSValue :=
  JObj [("mode", JStr "write_full_song");
        ("prompt", JStr ("Anime opening song about: " ++ theme
           ++ ". Write a dramatic, emotional J-pop style song with verse, chorus, bridge structure."))].

Definition generateLyrics (theme : string) : M JSValue :=
  try_catch
    (response <- minimaxRequest "/lyrics_generation" (lyrics_payload theme) ;;
     found <- lift (JS.member response "lyrics") ;;
     ret (JS.or found (JStr (getDefaultLyrics theme))))
    (fun error => ret (JStr (getDefaultLyrics theme))).

(** The [lyrics] property of what the lyrics call came to, if anything. *)
Definition lyrics_field (out : Outcome) : JSValue :=
  match out with
  | Responded d => JS.prop d "lyrics"
  | Rejected _ => JUndefined
  end.

(** What [generateLyrics] comes to, by the outcome of its call. *)
Definition chosen_lyrics (theme : string) (out : Outcome) : JSValue :=
  match out with
  | Responded d => JS.or (JS.prop d "lyrics") (JStr (getDefaultLyrics theme))
  | Rejected _ => JStr (getDefaultLyrics theme)
  end.

Definition generateMusic (theme : string) (lyrics : JSValue) : M JSValue :=
  minimaxRequest "/music_generation"
    (JObj [("model", JStr "music-2.5");
           ("prompt", JStr ("Anime J-Pop opening, " ++ theme
              ++ ", emotional, dramatic, high energy, catchy melody, with drums, bass, guitar, synth"));
           ("lyrics", lyrics);
           ("audio_setting", JObj [("sample_rate", JNum 44100);
                                   ("bitrate", JNum 256000);
                                   ("format", JStr "mp3")]);
           ("output_format", JStr "url")]).

Definition generateVideo (imageUrl : JSValue) (theme : string) : M JSValue :=
  minimaxRequest "/video_generation"
    (JObj [("model", JStr "MiniMax-Hailuo-2.3");
           ("prompt", JStr ("Anime style video, " ++ theme
              ++ ", dynamic camera movement, dramatic lighting, anime aesthetic, smooth motion, cinematic"));
           ("image_url", imageUrl);
           ("duration", JNum 6);
           ("resolution", JStr "720P")]).

Definition queryVideoStatus (taskId : JSValue) : M JSValue :=
  call (query_request "/query/video_generation" taskId).

(** The merge is a passthrough of the video URL. *)
Definition mergeVideoAndAudio (videoUrl audioUrl : JSValue) : M JSValue :=
  ret videoUrl.

Definition image_payload (prompt : string) : JSValue :=
  JObj [("model", JStr "image-01");
        ("prompt", JStr prompt);
        ("num_images", JNum 1);
        ("image_setting", JObj [("resolution", JStr "1024x1024")])].

Definition generateImage (prompt : string) : M JSValue :=
  minimaxRequest "/image_generation" (image_payload prompt).

Definition queryImageStatus (taskId : JSValue) : M JSValue :=
  call (query_request "/query/image_generation" taskId).

(** ** Generation orchestrator *)

Definition image_prompt (theme : string) : string :=
  theme ++ ", anime style, beautiful vibrant colors, high quality".

(** [imageResult?.id || imageResult?.task_id] *)
Definition image_task_id (imageResult : JSValue) : JSValue :=
  JS.or (JS.opt imageResult "id") (JS.opt imageResult "task_id").

(** [statusResult?.image?.image_url || statusResult?.data?.image_urls?.[0]] *)
Definition polled_image_url (statusResult : JSValue) : JSValue :=
  JS.or (JS.opt (JS.opt statusResult "image") "image_url")
        (JS.opt0 (JS.opt (JS.opt statusResult "data") "image_urls")).

(** [imageResult?.data?.image_urls?.[0] || imageResult?.image?.image_url] *)
Definition direct_image_url (imageResult : JSValue) : JSValue :=
  JS.or (JS.opt0 (JS.opt (JS.opt imageResult "data") "image_urls"))
        (JS.opt (JS.opt imageResult "image") "image_url").

(** The loop [for (let i = 0; i < 5; i++)] with [remaining] rounds to go;
    it yields [imageUrl] as the loop leaves it.  A query that throws is
    logged and the loop goes on. *)
Fixpoint poll_image (remaining : nat) (imageTaskId imageUrl : JSValue)
  : M JSValue :=
  match remaining with
  | O => ret imageUrl
  | S rest =>
      sleep 2000 ;;
      round <- try_catch
                 (statusResult <- queryImageStatus imageTaskId ;;
                  if JS.is_str (JS.opt statusResult "status") "success"
                  then ret (Some (polled_image_url statusResult))
                  else ret None)
                 (fun e => ret None) ;;
      match round with
      | Some found => ret found
      | None => poll_image rest imageTaskId imageUrl
      end
  end.

Definition image_query (imageTaskId : JSValue) : Request :=
  query_request "/query/image_generation" imageTaskId.

(** [statusResult?.status === 'success'] on what a query came to. *)
Definition says_success (out : Outcome) : bool :=
  match out with
  | Responded statusResult =>
      JS.is_str (JS.opt statusResult "status") "success"
  | Rejected _ => false
  end.

Definition is_image_query (r : Request) : bool :=
  match method r with
  | GET => url r =? MINIMAX_BASE_URL ++ "/query/image_generation"
  | POST => false
  end.

(** The image status queries among some events, each with the time it
    was issued at and what it came to. *)
Fixpoint image_queries (evs : list Event) : list (N * Outcome) :=
  match evs with
  | [] => []
  | Call t r out :: later =>
      if is_image_query r then (t, out) :: image_queries later
      else image_queries later
  | Timer _ _ :: later => image_queries later
  end.

(** A computation that adds no image status query to the log. *)
Definition quiet {A : Type} (c : M A) : Prop :=
  forall w : World,
  exists rest,
    log (snd (c w)) = (log w ++ rest)%list /\ image_queries rest = [].

(** How the loop ends after the queries [qs], having started with [n]
    rounds and [imageUrl] at [u]: on the first query that says success,
    with the URL of that answer; or after [n] queries none of which did,
    with [u] untouched. *)
Definition loop_end (n : nat) (u : JSValue) (qs : list (N * Outcome))
  (v : JSValue) : Prop :=
  (exists front t d,
      qs = (front ++ [(t, Responded d)])%list
      /\ Forall (fun q => says_success (snd q) = false) front
      /\ says_success (Responded d) = true
      /\ v = polled_image_url d)
  \/ (Forall (fun q => says_success (snd q) = false) qs
      /\ length qs = n
      /\ v = u).

(** The events of rounds of polling: before each query, its timer. *)
Fixpoint rounds (imageTaskId : JSValue) (qs : list (N * Outcome))
  : list Event :=
  match qs with
  | [] => []
  | (t, out) :: later =>
      Timer (t - 2000) 2000 :: Call t (image_query imageTaskId) out
        :: rounds imageTaskId later
  end.

(** Each query is issued 2000 ms or more after [t], the time the one
    before it was issued at. *)
Fixpoint spaced (t : N) (qs : list (N * Outcome)) : Prop :=
  match qs with
  | [] => True
  | (t1, _) :: later => (t + 2000 <= t1)%N /\ spaced t1 later
  end.

(** From [imageResult] to the image URL the later steps use. *)
Definition resolve_image_url (imageResult : JSValue) : M JSValue :=
  let imageTaskId := image_task_id imageResult in
  imageUrl <- (if JS.truthy imageTaskId
               then poll_image 5 imageTaskId JNull
               else ret JNull) ;;
  if negb (JS.truthy imageUrl)
  then ret (direct_image_url imageResult)
  else ret imageUrl.

Definition music_url (musicResult : JSValue) : JSValue :=
  JS.or (JS.opt (JS.opt musicResult "data") "audio")
   (JS.or (JS.opt musicResult "audio_file")
     (JS.or (JS.opt (JS.opt musicResult "audio") "file_url")
       (JS.or (JS.opt musicResult "file_url")
         (JS.or (JS.opt musicResult "url") musicResult)))).

(** [videoResult?.task_id || videoResult?.task?.task_id || videoResult] *)
Definition video_task_id (videoResult : JSValue) : JSValue :=
  JS.or (JS.or (JS.opt videoResult "task_id")
               (JS.opt (JS.opt videoResult "task") "task_id"))
        videoResult.

Definition processing_or_completed (taskId : JSValue) : JSValue :=
  if JS.truthy taskId then JStr "processing" else JStr "completed".

(** The body of the 200 reply. *)
Definition generated (taskId musicUrl imageUrl lyrics : JSValue) : JSValue :=
  JS.json [("status", processing_or_completed taskId);
           ("taskId", taskId);
           ("musicUrl", musicUrl);
           ("imageUrl", imageUrl);
           ("lyrics", lyrics)].

(** The world once [tasks.set(taskId, {...})] has run. *)
Definition registered (taskId : JSValue) (t : GenerationTask) (w : World)
  : World :=
  mkWorld (upstream w) (now w) (log w) (tasks_set taskId t (tasks w)).

(** [app.post('/api/generate', ...)] *)
Definition post_api_generate (req : GenerateForm) : M Response :=
  try_catch
    (let theme := form_theme req in
     if negb (JS.truthy (JStr MINIMAX_API_KEY))
     then ret (mkResponse 500 (JS.json
            [("error", JStr "MiniMax API key not configured. Please set MINIMAX_API_KEY environment variable.")]))
     else
       imageResult <- generateImage (image_prompt theme) ;;
       imageUrl <- resolve_image_url imageResult ;;
       lyrics <- generateLyrics theme ;;
       musicResult <- generateMusic theme lyrics ;;
       let musicUrl := music_url musicResult in
       taskId <- (if JS.truthy imageUrl
                  then videoResult <- generateVideo imageUrl theme ;;
                       ret (video_task_id videoResult)
                  else ret JNull) ;;
       (if JS.truthy taskId
        then createdAt <- date_now ;;
             registry_set taskId
               (mkTask theme imageUrl musicUrl lyrics processing createdAt
                       JUndefined)
        else ret tt) ;;
       ret (mkResponse 200 (generated taskId musicUrl imageUrl lyrics)))
    (fun error =>
       ret (mkResponse 500 (JS.json
              [("error", JS.or (JStr (message error))
                               (JStr "Failed to generate anime opening"))]))).

(** ** Status endpoint *)

Definition set_status (s : TaskStatus) (t : GenerationTask) : GenerationTask :=
  mkTask (theme t) (imageUrl t) (musicUrl t) (lyrics t) s (createdAt t)
         (videoUrl t).

Definition set_videoUrl (v : JSValue) (t : GenerationTask) : GenerationTask :=
  mkTask (theme t) (imageUrl t) (musicUrl t) (lyrics t) (status t)
         (createdAt t) v.

(** [app.get('/api/status/:taskId', ...)]; the path parameter is a string. *)
Definition get_api_status (taskId : string) : M Response :=
  try_catch
    (found <- registry_get (JStr taskId) ;;
     match found with
     | None =>
         ret (mkResponse 404 (JS.json [("error", JStr "Task not found")]))
     | Some task =>
         statusResult <- queryVideoStatus (JStr taskId) ;;
         reported <- lift (JS.member statusResult "status") ;;
         if JS.is_str reported "success" then
           video <- lift (JS.member statusResult "video") ;;
           let videoUrl := JS.opt video "video_url" in
           finalVideoUrl <- mergeVideoAndAudio videoUrl (musicUrl task) ;;
           registry_set (JStr taskId)
             (set_videoUrl finalVideoUrl (set_status success task)) ;;
           ret (mkResponse 200 (JS.json [("status", JStr "success");
                                         ("videoUrl", finalVideoUrl)]))
         else
           reported' <- lift (JS.member statusResult "status") ;;
           if JS.is_str reported' "failed" then
             registry_set (JStr taskId) (set_status failed task) ;;
             ret (mkResponse 200 (JS.json
                    [("status", JStr "failed");
                     ("error", JStr "Video generation failed")]))
           else
             ret (mkResponse 200 (JS.json [("status", JStr "processing")]))
     end)
    (fun error =>
       ret (mkResponse 500 (JS.json
              [("error", JS.or (JStr (message error))
                               (JStr "Failed to query status"))]))).

(** A run of polls against the status endpoint, oldest first. *)
Fixpoint poll_all (taskIds : list string) (w : World) : World :=
  match taskIds with
  | [] => w
  | taskId :: later => poll_all later (snd (get_api_status taskId w))
  end.

(** The terminal status that the answer to a status query carries, as
    the endpoint reads it; none when the query is rejected or the answer
    says neither "success" nor "failed". *)
Definition reported_status (out : Outcome) : option TaskStatus :=
  match out with
  | Responded d =>
      if JS.nullish d then None
      else if JS.is_str (JS.prop d "status") "success" then Some success
      else if JS.is_str (JS.prop d "status") "failed" then Some failed
      else None
  | Rejected _ => None
  end.

(** What the provider would report for [taskId] in the world [w]. *)
Definition video_report (taskId : string) (w : World) : option TaskStatus :=
  reported_status
    (fst (fst (provider (upstream w)
                 (query_request "/query/video_generation" (JStr taskId))))).

(** ** Health check *)

(** [app.get('/api/health', ...)]; the key's [length] counts the bytes of
    a key made of ASCII characters. *)
Definition get_api_health : Response :=
  mkResponse 200
    (JS.json [("status", JStr "ok");
              ("apiKeyConfigured", JBool (JS.truthy (JStr MINIMAX_API_KEY)));
              ("apiKeyLength",
               JNum (Z.of_nat (String.length MINIMAX_API_KEY)))]).

(** ** Measuring a run *)

(** The provider calls among some events. *)
Fixpoint calls (evs : list Event) : nat :=
  match evs with
  | [] => 0
  | Call _ _ _ :: later => S (calls later)
  | Timer _ _ :: later => calls later
  end.

(** The time spent waiting on timers among some events. *)
Fixpoint delay (evs : list Event) : N :=
  match evs with
  | [] => 0%N
  | Timer _ ms :: later => (ms + delay later)%N
  | Call _ _ _ :: later => delay later
  end.

(** A computation that issues [k] calls at most and waits [d] ms at most
    on timers. *)
Definition bounded {A : Type} (k : nat) (d : N) (c : M A) : Prop :=
  forall w : World,
  exists rest,
    log (snd (c w)) = (log w ++ rest)%list
    /\ calls rest <= k
    /\ (delay rest <= d)%N.

End WithProvider.

(** What a poll never touches: the data the task was generated from. *)
Definition same_generation (t t' : GenerationTask) : Prop :=
  theme t' = theme t
  /\ imageUrl t' = imageUrl t
  /\ musicUrl t' = musicUrl t
  /\ lyrics t' = lyrics t
  /\ createdAt t' = createdAt t.

(** The transitions the data model allows: none, or out of [processing]. *)
Definition forward_only (before after : TaskStatus) : Prop :=
  after = before \/ before = processing.

End Server.


(* ===================================================================== *)
(** * The client *)
(* ===================================================================== *)

Module Client.

Inductive StepStatus : Type := pending | processing | completed | error.

Record GenerationStep : Type := mkStep {
  id : nat;
  label : string;
  status : StepStatus
}.

Record GenerationResult : Type := mkResult {
  videoUrl : JSValue;
  musicUrl : JSValue
}.

(** The [File] chosen by the user. *)
Record File : Type := mkFile {
  name : string;
  size : N
}.

(** The [useState] cells of [App]. *)
Record AppState : Type := mkApp {
  image : option File;
  theme : string;
  isGenerating : bool;
  progress : list GenerationStep;
  result : option GenerationResult;
  error_message : option string
}.

(** The state at mount. *)
Definition initial : AppState :=
  mkApp None "" false
        [mkStep 1 "Uploading Image" pending;
         mkStep 2 "Generating Music" pending;
         mkStep 3 "Creating Video" pending;
         mkStep 4 "Merging & Finalizing" pending]
        None None.

Definition setProgress (f : list GenerationStep -> list GenerationStep)
  (s : AppState) : AppState :=
  mkApp (image s) (theme s) (isGenerating s) (f (progress s)) (result s)
        (error_message s).

Definition setIsGenerating (b : bool) (s : AppState) : AppState :=
  mkApp (image s) (theme s) b (progress s) (result s) (error_message s).

Definition setResult (r : option GenerationResult) (s : AppState) : AppState :=
  mkApp (image s) (theme s) (isGenerating s) (progress s) r (error_message s).

Definition setError (e : option string) (s : AppState) : AppState :=
  mkApp (image s) (theme s) (isGenerating s) (progress s) (result s) e.

(** [setProgress(prev => prev.map(step => step.id === stepId
      ? { ...step, status } : step))]: a functional update, applied to the
    state as it is when the update runs. *)
Definition updateStep (stepId : nat) (st : StepStatus) (s : AppState)
  : AppState :=
  setProgress
    (map (fun step =>
            if Nat.eqb (id step) stepId
            then mkStep (id step) (label step) st
            else step))
    s.

Definition is_processing (st : StepStatus) : bool :=
  match st with
  | processing => true
  | _ => false
  end.

(** The text made of the given bytes. *)
Definition bytes (l : list nat) : string :=
  string_of_list_ascii (map ascii_of_nat l).

(** The characters that [trim] removes, each by its bytes in UTF-8: the
    WhiteSpace and LineTerminator code points U+0009 to U+000D, U+0020,
    U+00A0, U+1680, U+2000 to U+200A, U+2028, U+2029, U+202F, U+205F,
    U+3000 and U+FEFF. *)
Definition whitespace : list string :=
  [bytes [9]; bytes [10]; bytes [11]; bytes [12]; bytes [13]; bytes [32];
   bytes [194; 160];
   bytes [225; 154; 128];
   bytes [226; 128; 128]; bytes [226; 128; 129]; bytes [226; 128; 130];
   bytes [226; 128; 131]; bytes [226; 128; 132]; bytes [226; 128; 133];
   bytes [226; 128; 134]; bytes [226; 128; 135]; bytes [226; 128; 136];
   bytes [226; 128; 137]; bytes [226; 128; 138];
   bytes [226; 128; 168]; bytes [226; 128; 169];
   bytes [226; 128; 175];
   bytes [226; 129; 159];
   bytes [227; 128; 128];
   bytes [239; 187; 191]].

(** [s] without its prefix [p], when it starts with it. *)
Fixpoint strip (p s : string) : option string :=
  match p with
  | EmptyString => Some s
  | String a p' =>
      match s with
      | String b s' => if Ascii.eqb a b then strip p' s' else None
      | EmptyString => None
      end
  end.

(** [s] without the first of the prefixes [ps] it starts with. *)
Fixpoint first_strip (ps : list string) (s : string) : option string :=
  match ps with
  | [] => None
  | p :: more =>
      match strip p s with
      | Some r => Some r
      | None => first_strip more s
      end
  end.

(** Whether [s] is made of whitespace only; each round removes one
    character, so the length of [s] is fuel enough. *)
Fixpoint all_space (fuel : nat) (s : string) : bool :=
  match s with
  | EmptyString => true
  | String _ _ =>
      match fuel with
      | O => false
      | S k =>
          match first_strip whitespace s with
          | Some r => all_space k r
          | None => false
          end
      end
  end.

(** [!theme.trim()] *)
Definition blank (t : string) : bool :=
  all_space (String.length t) t.

(** What one [fetch] comes to: a rejection, or a reply with its [ok] flag
    and what [response.json()] resolves to or throws. *)
Inductive Fetch : Type :=
| NetworkFailure (e : JSError)
| Reply (ok : bool) (parsed : Result JSValue).

(** Where a run of the handler stands: past its [try] block, thrown out
    of it, or still awaiting a reply the network has not given. *)
Inductive Run : Type :=
| Finished (s : AppState)
| Thrown (e : JSError) (s : AppState)
| Awaiting (s : AppState).

(** The loop [while (!videoReady)], one reply of [net] per round. *)
Fixpoint poll_video (data : JSValue) (net : list Fetch) (s : AppState) : Run :=
  match net with
  | [] => Awaiting s
  | NetworkFailure e :: _ => Thrown e s
  | Reply _ (Throw e) :: _ => Thrown e s
  | Reply _ (Ok statusData) :: later =>
      match JS.member statusData "status" with
      | Throw e => Thrown e s
      | Ok reported =>
          if JS.is_str reported "success" then
            Finished
              (updateStep 4 completed
                 (setResult (Some (mkResult (JS.prop statusData "videoUrl")
                                            (JS.prop data "musicUrl")))
                    (updateStep 4 processing (updateStep 3 completed s))))
          else if JS.is_str reported "failed" then
            Thrown (mkError "Video generation failed") s
          else poll_video data later s
      end
  end.

(** The [try] block of [handleGenerate]. *)
Definition try_block (net : list Fetch) (s : AppState) : Run :=
  let s1 := updateStep 1 processing s in
  match net with
  | [] => Awaiting s1
  | NetworkFailure e :: _ => Thrown e s1
  | Reply false (Throw e) :: _ => Thrown e s1
  | Reply false (Ok data) :: _ =>
      match JS.member data "error" with
      | Throw e => Thrown e s1
      | Ok reason =>
          Thrown (mkError (JS.to_string
                             (JS.or reason (JStr "Generation failed")))) s1
      end
  | Reply true parsed :: later =>
      let s2 := updateStep 2 processing (updateStep 1 completed s1) in
      match parsed with
      | Throw e => Thrown e s2
      | Ok data =>
          match JS.member data "status" with
          | Throw e => Thrown e s2
          | Ok st =>
              if JS.is_str st "processing"
              then poll_video data later
                     (updateStep 3 processing (updateStep 2 completed s2))
              else Finished s2
          end
      end
  end.

(** The [catch] block.  [progress] is the constant the handler closed
    over: the array of the render in which this [handleGenerate] was
    created, not the state the updates have since produced. *)
Definition catch_block (progress : list GenerationStep) (err : JSError)
  (s : AppState) : AppState :=
  fold_left
    (fun acc step =>
       if is_processing (status step) then updateStep (id step) error acc
       else acc)
    progress
    (setError (Some (message err)) s).

(** [handleGenerate], run on the state [s0] of the render that created
    it, against the replies [net] gives. *)
Definition handleGenerate (s0 : AppState) (net : list Fetch) : AppState :=
  let progress := progress s0 in
  match image s0 with
  | None => setError (Some "Please upload an image and enter a theme") s0
  | Some _ =>
      if blank (theme s0)
      then setError (Some "Please upload an image and enter a theme") s0
      else
        let s := setResult None (setError None (setIsGenerating true s0)) in
        match try_block net s with
        | Finished s' => setIsGenerating false s'
        | Thrown err s' => setIsGenerating false (catch_block progress err s')
        | Awaiting s' => s'
        end
  end.

(** The state the [try] block starts from. *)
Definition begun (s0 : AppState) : AppState :=
  setResult None (setError None (setIsGenerating true s0)).

(** The steps shown, statuses apart. *)
Definition steps (s : AppState) : list (nat * string) :=
  map (fun step => (id step, label step)) (progress s).

(** The state a run has reached. *)
Definition run_state (r : Run) : AppState :=
  match r with
  | Finished s => s
  | Thrown _ s => s
  | Awaiting s => s
  end.

(** What no run of the [try] block changes: the form, the flag, the
    message and the steps shown. *)
Definition untouched (s s' : AppState) : Prop :=
  image s' = image s
  /\ theme s' = theme s
  /\ isGenerating s' = isGenerating s
  /\ error_message s' = error_message s
  /\ steps s' = steps s.

(** A reply to a poll after which the loop goes round again: it parses
    to a value other than [null] whose [status] is neither "success" nor
    "failed". *)
Definition keeps_polling (f : Fetch) : bool :=
  match f with
  | Reply _ (Ok statusData) =>
      negb (JS.nullish statusData)
      && negb (JS.is_str (JS.prop statusData "status") "success")
      && negb (JS.is_str (JS.prop statusData "status") "failed")
  | _ => false
  end.

End Client.

(* ===================================================================== *)
(** * From a reply of the server to what [fetch] gives the client *)
(* ===================================================================== *)

Module Http.

(** [response.ok] holds for the codes 200 to 299; [response.json()]
    gives back the body that [res.json] sent. *)
Definition to_fetch (r : Server.Response) : Client.Fetch :=
  Client.Reply ((200 <=? Server.code r)%N && (Server.code r <=? 299)%N)
               (Ok (Server.body r)).

End Http.

(* ===================================================================== *)
(** * Scenarios *)
(* ===================================================================== *)

Module Scenario.

(** A provider that plays a script: each request takes the next scripted
    outcome and latency, whatever it asks; once the script is over every
    request is refused. *)
Definition scripted (script : list (Server.Outcome * N))
  (r : Server.Request) : Server.Outcome * N * list (Server.Outcome * N) :=
  match script with
  | [] => (Server.Rejected (mkError "connect ECONNREFUSED"), 0%N, [])
  | (out, latency) :: later => (out, latency, later)
  end.

Definition key : string := "sk-test".

Definition start (script : list (Server.Outcome * N))
  (registry : Server.Registry) : Server.World :=
  Server.mkWorld script 1000 [] registry.

Definition replied (fields : list (string * JSValue)) : Server.Outcome * N :=
  (Server.Responded (JObj fields), 120%N).

Definition a_task (st : Server.TaskStatus) : Server.GenerationTask :=
  Server.mkTask "Epic battle scene with dramatic orchestra"
                (JStr "https://cdn.example/i.png")
                (JStr "https://cdn.example/m.mp3")
                (JStr "la la") st 900 JUndefined.

Definition form : Server.GenerateForm :=
  Server.mkForm (Some "uploads/1-a.jpg")
                "Epic battle scene with dramatic orchestra".

(** A registered task whose video the provider first reports as done and
    then, asked again, as failed. *)
Definition flipping : Server.World :=
  start [replied [("status", JStr "success");
                  ("video", JObj [("video_url",
                                   JStr "https://cdn.example/v.mp4")])];
         replied [("status", JStr "failed")]]
        [(JStr "t1", a_task Server.processing)].

Definition flipping_once : Server.World :=
  Server.poll_all scripted key ["t1"] flipping.

Definition flipping_twice : Server.World :=
  Server.poll_all scripted key ["t1"] flipping_once.

Definition stored_status (w : @Server.World (list (Server.Outcome * N)))
  : option Server.TaskStatus :=
  option_map Server.status (Server.tasks_get (JStr "t1") (Server.tasks w)).

(** The provider answers the lyrics call with a number for lyrics. *)
Definition numeric_lyrics : Server.World :=
  start [replied [("lyrics", JNum 42)]] [].

(** The image call answers with a URL at once, lyrics and music are
    generated, and the video call answers 200 with [null] for a body. *)
Definition null_video : Server.World :=
  start [replied [("data", JObj [("image_urls",
                                  JArr [JStr "https://cdn.example/i.png"])])];
         replied [("lyrics", JStr "la la")];
         replied [("data", JObj [("audio", JStr "https://cdn.example/m.mp3")])];
         (Server.Responded JNull, 120%N)]
        [].

(** The image call answers with a task id, the second status query says
    success, and every later call is answered. *)
Definition happy : Server.World :=
  start [replied [("id", JStr "img-1")];
         replied [("status", JStr "processing")];
         replied [("status", JStr "success");
                  ("image", JObj [("image_url",
                                   JStr "https://cdn.example/i.png")])];
         replied [("lyrics", JStr "la la")];
         replied [("data", JObj [("audio", JStr "https://cdn.example/m.mp3")])];
         replied [("task_id", JStr "vid-1")]]
        [].

(** The reply a run of a handler came to. *)
Definition reply_of (x : Result Server.Response) : Server.Response :=
  match x with
  | Ok r => r
  | Throw _ => Server.mkResponse 0 JUndefined
  end.

Definition happy_run : Result Server.Response * Server.World :=
  Server.post_api_generate scripted key form happy.

Definition null_video_run : Result Server.Response * Server.World :=
  Server.post_api_generate scripted key form null_video.

(** A registered task that the provider reports as done, twice. *)
Definition done : Server.World :=
  start [replied [("status", JStr "success");
                  ("video", JObj [("video_url",
                                   JStr "https://cdn.example/v.mp4")])];
         replied [("status", JStr "success");
                  ("video", JObj [("video_url",
                                   JStr "https://cdn.example/v.mp4")])]]
        [(JStr "t1", a_task Server.processing)].

(** A registered task that the provider reports as still queued. *)
Definition queued : Server.World :=
  start [replied [("status", JStr "Queueing")]]
        [(JStr "t1", a_task Server.processing)].

(** The client just before the click: an image chosen, a theme typed,
    the four steps as they were at mount. *)
Definition ready : Client.AppState :=
  Client.mkApp (Some (Client.mkFile "cover.jpg" 2048))
               "Epic battle scene with dramatic orchestra" false
               (Client.progress Client.initial) None None.

Definition offline : list Client.Fetch :=
  [Client.NetworkFailure (mkError "Failed to fetch")].

Definition refused : Server.Outcome * N :=
  (Server.Rejected (mkError "Request failed with status code 500"), 80%N).

(** The image call answers with a URL at once, lyrics are generated, and
    the music call is answered 500; one task is already registered. *)
Definition music_down : Server.World :=
  start [replied [("data", JObj [("image_urls",
                                  JArr [JStr "https://cdn.example/i.png"])])];
         replied [("lyrics", JStr "la la")];
         refused]
        [(JStr "t0", a_task Server.processing)].

Definition music_down_run : Result Server.Response * Server.World :=
  Server.post_api_generate scripted key form music_down.

(** Every call is answered, the video call with a body that carries an
    error report and no task id. *)
Definition odd_video : Server.World :=
  start [replied [("data", JObj [("image_urls",
                                  JArr [JStr "https://cdn.example/i.png"])])];
         replied [("lyrics", JStr "la la")];
         replied [("data", JObj [("audio", JStr "https://cdn.example/m.mp3")])];
         replied [("base_resp", JObj [("status_code", JNum 1008);
                                      ("status_msg",
                                       JStr "insufficient balance")])]]
        [].

Definition odd_video_run : Result Server.Response * Server.World :=
  Server.post_api_generate scripted key form odd_video.

(** A registered task that the provider reports as failed. *)
Definition failing : Server.World :=
  start [replied [("status", JStr "failed")]]
        [(JStr "t1", a_task Server.processing)].

(** A registered task while the provider's status query is down. *)
Definition outage : Server.World :=
  start [refused] [(JStr "t1", a_task Server.processing)].

(** The replies of a run of the client that succeeds on its third poll. *)
Definition generated_reply : JSValue :=
  JObj [("status", JStr "processing"); ("taskId", JStr "vid-1");
        ("musicUrl", JStr "https://cdn.example/m.mp3")].

Definition still_rendering : list Client.Fetch :=
  [Client.Reply true (Ok (JObj [("status", JStr "processing")]));
   Client.Reply false (Ok (JObj [("error", JStr "Task not found")]))].

Definition rendered : JSValue :=
  JObj [("status", JStr "success");
        ("videoUrl", JStr "https://cdn.example/v.mp4")].

Definition completed_reply : JSValue :=
  JObj [("status", JStr "completed"); ("taskId", JNull);
        ("musicUrl", JStr "https://cdn.example/m.mp3")].

(** The image call answers with a task id and, beside it, a URL; none of
    the five status queries says success (one is refused, one reports a
    failure); every later call is answered. *)
Definition exhausted : Server.World :=
  start [replied [("id", JStr "img-1");
                  ("data", JObj [("image_urls",
                                  JArr [JStr "https://cdn.example/direct.png"])])];
         replied [("status", JStr "processing")];
         refused;
         replied [("status", JStr "processing")];
         replied [("status", JStr "failed")];
         replied [("status", JStr "processing")];
         replied [("lyrics", JStr "la la")];
         replied [("data", JObj [("audio", JStr "https://cdn.example/m.mp3")])];
         replied [("task_id", JStr "vid-2")]]
        [].

Definition exhausted_run : Result Server.Response * Server.World :=
  Server.post_api_generate scripted key form exhausted.

(** The lyrics call of this one run is answered 500; the calls around it
    are answered. *)
Definition lyrics_refused : Server.World :=
  start [replied [("data", JObj [("image_urls",
                                  JArr [JStr "https://cdn.example/i.png"])])];
         refused;
         replied [("data", JObj [("audio", JStr "https://cdn.example/m.mp3")])];
         replied [("task_id", JStr "vid-3")]]
        [].

Definition lyrics_refused_run : Result Server.Response * Server.World :=
  Server.post_api_generate scripted key form lyrics_refused.

(** An image chosen and, for a theme, an ideographic space (U+3000), a
    space and a no-break space (U+00A0). *)
Definition wide_blank : Client.AppState :=
  Client.mkApp (Some (Client.mkFile "cover.jpg" 2048))
               (Client.bytes [227; 128; 128; 32; 194; 160]) false
               (Client.progress Client.initial) None None.

End Scenario.

(* ===================================================================== *)
(** * Facts about values and the registry *)
(* ===================================================================== *)

Open Scope list_scope.

Lemma truthy_or (a b : JSValue) :
  JS.truthy (JS.or a b) = (JS.truthy a || JS.truthy b)%bool.
Proof. unfold JS.or. destruct (JS.truthy a) eqn:E; simpl; auto. Qed.


Lemma truthy_str (s : string) :
  JS.truthy (JStr s) = true <-> s <> "".
Proof.
  simpl. destruct (String.eqb_spec s ""); simpl; split; congruence.
Qed.

Lemma same_value_zero_str_key (k : JSValue) (s : string) :
  JS.same_value_zero k (JStr s) = true <-> k = JStr s.
Proof.
  destruct k; simpl; split; try congruence.
  - intros H. apply String.eqb_eq in H. now subst.
  - intros H. injection H as ->. apply String.eqb_refl.
Qed.

Lemma tasks_get_set_same (key : JSValue) (t : Server.GenerationTask)
  (m : Server.Registry) :
  JS.same_value_zero key key = true ->
  Server.tasks_get key (Server.tasks_set key t m) = Some t.
Proof.
  intros R. induction m as [|[k t0] rest IH]; simpl.
  - now rewrite R.
  - destruct (JS.same_value_zero k key) eqn:E; simpl; now rewrite E.
Qed.

Lemma tasks_set_twice (key : JSValue) (t u : Server.GenerationTask)
  (m : Server.Registry) :
  JS.same_value_zero key key = true ->
  Server.tasks_set key u (Server.tasks_set key t m) = Server.tasks_set key u m.
Proof.
  intros R. induction m as [|[k t0] rest IH]; simpl.
  - now rewrite R.
  - destruct (JS.same_value_zero k key) eqn:E; simpl; rewrite E; congruence.
Qed.

Lemma same_value_zero_from_str (s : string) (key : JSValue) :
  JS.same_value_zero (JStr s) key = true <-> key = JStr s.
Proof.
  destruct key; simpl; split; try congruence.
  - intros H. apply String.eqb_eq in H. now subst.
  - intros H. injection H as ->. apply String.eqb_refl.
Qed.

(** Setting the entry of a string key leaves the entry of every other
    key as it was. *)
Lemma tasks_get_set_other (s : string) (key : JSValue)
  (t : Server.GenerationTask) (m : Server.Registry) :
  key <> JStr s ->
  Server.tasks_get key (Server.tasks_set (JStr s) t m) = Server.tasks_get key m.
Proof.
  intros D.
  assert (E : JS.same_value_zero (JStr s) key = false).
  { destruct (JS.same_value_zero (JStr s) key) eqn:E; auto.
    apply same_value_zero_from_str in E. contradiction. }
  induction m as [|[k t1] rest IH];
    cbn [Server.tasks_set Server.tasks_get].
  - now rewrite E.
  - destruct (JS.same_value_zero k (JStr s)) eqn:K;
      cbn [Server.tasks_set Server.tasks_get].
    + apply same_value_zero_str_key in K. subst k. now rewrite E.
    + destruct (JS.same_value_zero k key); auto.
Qed.

(* ===================================================================== *)
(** * The status endpoint *)
(* ===================================================================== *)

Section StatusEndpoint.

Context {PState : Type}.
Variable provider : PState -> Server.Request -> Server.Outcome * N * PState.
Variable KEY : string.

#[local] Abbreviation get_api_status := (Server.get_api_status provider KEY).
#[local] Abbreviation video_query taskId :=
  (Server.query_request KEY "/query/video_generation" (JStr taskId)).

Ltac unfold_status :=
  unfold Server.get_api_status, Server.try_catch, Server.bind,
    Server.registry_get, Server.registry_set, Server.queryVideoStatus,
    Server.call, Server.lift, Server.mergeVideoAndAudio, Server.ret,
    JS.member.

Ltac step :=
  cbn -[JS.is_str JS.json JS.or JS.opt Server.tasks_get Server.tasks_set
        Server.query_request].

(** C6.  A task id that the registry does not hold gets a 404 with an
    error payload, and the world is left as it was: the log gains no
    event, so the provider is not queried for that id. *)
Theorem status_unknown_task_is_404 (taskId : string) (w : Server.World) :
  Server.tasks_get (JStr taskId) (Server.tasks w) = None ->
  get_api_status taskId w =
    (Ok (Server.mkResponse 404 (JObj [("error", JStr "Task not found")])), w)
  /\ Server.log (snd (get_api_status taskId w)) = Server.log w.
Proof.
  intros H. unfold_status. rewrite H. split; reflexivity.
Qed.

(** C7.  When a poll answers with status "processing", the registry after
    the poll is the registry before it: the stored task, like every other
    one, keeps all its fields. *)
Theorem status_processing_leaves_registry (taskId : string)
  (w w' : Server.World) (r : Server.Response) (task : Server.GenerationTask) :
  Server.tasks_get (JStr taskId) (Server.tasks w) = Some task ->
  get_api_status taskId w = (Ok r, w') ->
  JS.prop (Server.body r) "status" = JStr "processing" ->
  Server.tasks w' = Server.tasks w
  /\ Server.tasks_get (JStr taskId) (Server.tasks w') = Some task.
Proof.
  intros G H P. revert H. unfold_status. rewrite G.
  destruct (provider _ _) as [[out latency] p'].
  destruct out as [d|e]; cbn -[JS.is_str JS.json JS.or].
  - destruct (JS.nullish d); cbn -[JS.is_str JS.json JS.or].
    + intros [= <- <-]. cbn in P. discriminate.
    + destruct (JS.is_str (JS.prop d "status") "success");
        cbn -[JS.is_str JS.json JS.or].
      * intros [= <- <-]. cbn in P. discriminate.
      * destruct (JS.is_str (JS.prop d "status") "failed");
          cbn -[JS.is_str JS.json JS.or];
          intros [= <- <-]; cbn in P; try discriminate.
        cbn. auto.
  - intros [= <- <-]. revert P. unfold JS.json, JS.or.
    destruct (JS.truthy (JStr (message e))); cbn; discriminate.
Qed.

Lemma prop_str_not_nullish (d : JSValue) (name lit : string) :
  JS.prop d name = JStr lit -> JS.nullish d = false.
Proof. destruct d; simpl; congruence. Qed.

Lemma set_success_twice (v : JSValue) (t : Server.GenerationTask) :
  Server.set_videoUrl v
    (Server.set_status Server.success
       (Server.set_videoUrl v (Server.set_status Server.success t)))
  = Server.set_videoUrl v (Server.set_status Server.success t).
Proof. reflexivity. Qed.

(** C5.  A poll of a registered task that the provider reports as
    "success" answers [{status: "success", videoUrl}] (the key left out
    when the report carries no URL) and leaves under the id the task
    with status "success", the resolved video URL and its other fields
    as they were; a second poll, the provider reporting the same, gives
    the same answer and leaves the registry as the first poll left
    it. *)
Theorem status_success_is_idempotent (taskId : string) (w : Server.World)
  (task : Server.GenerationTask) (d : JSValue) (lat1 lat2 : N)
  (p1 p2 : PState) :
  Server.tasks_get (JStr taskId) (Server.tasks w) = Some task ->
  provider (Server.upstream w) (video_query taskId)
    = (Server.Responded d, lat1, p1) ->
  provider p1 (video_query taskId) = (Server.Responded d, lat2, p2) ->
  JS.prop d "status" = JStr "success" ->
  let v := JS.opt (JS.prop d "video") "video_url" in
  let reply := Ok (Server.mkResponse 200
                     (JS.json [("status", JStr "success"); ("videoUrl", v)])) in
  let first := get_api_status taskId w in
  let second := get_api_status taskId (snd first) in
  fst first = reply
  /\ Server.tasks_get (JStr taskId) (Server.tasks (snd first))
     = Some (Server.mkTask (Server.theme task) (Server.imageUrl task)
               (Server.musicUrl task) (Server.lyrics task) Server.success
               (Server.createdAt task) v)
  /\ fst second = reply
  /\ Server.tasks (snd second) = Server.tasks (snd first)
  /\ (JS.is_undefined v = false ->
      reply = Ok (Server.mkResponse 200
                    (JObj [("status", JStr "success"); ("videoUrl", v)])))
  /\ (v = JUndefined ->
      reply = Ok (Server.mkResponse 200 (JObj [("status", JStr "success")]))).
Proof.
  intros G H1 H2 S v reply first second.
  assert (NN : JS.nullish d = false) by (eapply prop_str_not_nullish; eauto).
  assert (R : JS.same_value_zero (JStr taskId) (JStr taskId) = true)
    by (now apply same_value_zero_from_str).
  assert (E1 : first =
            (reply,
             Server.mkWorld p1 (Server.now w + lat1)
               (Server.log w
                  ++ [Server.Call (Server.now w) (video_query taskId)
                        (Server.Responded d)])
               (Server.tasks_set (JStr taskId)
                  (Server.set_videoUrl v
                     (Server.set_status Server.success task))
                  (Server.tasks w)))).
  { subst first. unfold_status. rewrite G, H1. step. rewrite NN. step.
    rewrite S. step. rewrite ?NN. reflexivity. }
  assert (E2 : second =
            (reply,
             Server.mkWorld p2 (Server.now w + lat1 + lat2)
               ((Server.log w
                  ++ [Server.Call (Server.now w) (video_query taskId)
                        (Server.Responded d)])
                  ++ [Server.Call (Server.now w + lat1) (video_query taskId)
                        (Server.Responded d)])
               (Server.tasks_set (JStr taskId)
                  (Server.set_videoUrl v
                     (Server.set_status Server.success task))
                  (Server.tasks w)))).
  { subst second. rewrite E1. unfold_status. step.
    rewrite tasks_get_set_same by exact R. step. rewrite H2. step.
    rewrite NN. step. rewrite S.
    change (JS.is_str (JStr "success") "success") with true. step.
    rewrite ?NN. step. rewrite tasks_set_twice by exact R.
    fold v. rewrite set_success_twice. reflexivity. }
  rewrite E2, E1. cbn [fst snd Server.tasks].
  split; [reflexivity|].
  split; [exact (tasks_get_set_same (JStr taskId) _ _ R)|].
  split; [reflexivity|]. split; [reflexivity|].
  subst reply. unfold JS.json. cbn [filter snd JS.is_undefined negb].
  split.
  - intros U. now rewrite U.
  - intros U. now rewrite U.
Qed.

Lemma reported_status_terminal (out : Server.Outcome) (s : Server.TaskStatus) :
  Server.reported_status out = Some s -> s <> Server.processing.
Proof.
  destruct out as [d|e]; simpl; [|discriminate].
  destruct (JS.nullish d); [discriminate|].
  destruct (JS.is_str _ "success"); [intros [= <-]; discriminate|].
  destruct (JS.is_str _ "failed"); [intros [= <-]; discriminate|discriminate].
Qed.

(** What one poll does to the entry of any key. *)
Lemma status_poll_step (taskId : string) (w : Server.World) (key : JSValue)
  (t : Server.GenerationTask) :
  Server.tasks_get key (Server.tasks w) = Some t ->
  exists t',
    Server.tasks_get key (Server.tasks (snd (get_api_status taskId w)))
      = Some t'
    /\ (Server.status t' = Server.status t
        \/ (key = JStr taskId
            /\ Server.video_report provider KEY taskId w
               = Some (Server.status t'))).
Proof.
  intros H. unfold Server.video_report. unfold_status.
  destruct (Server.tasks_get (JStr taskId) (Server.tasks w)) as [task|] eqn:G;
    [|exists t; cbn; auto].
  destruct (provider _ _) as [[out latency] p'].
  assert (SET : forall u : Server.GenerationTask,
             Server.reported_status out = Some (Server.status u) ->
             exists t',
               Server.tasks_get key
                 (Server.tasks_set (JStr taskId) u (Server.tasks w)) = Some t'
               /\ (Server.status t' = Server.status t
                   \/ (key = JStr taskId
                       /\ Server.reported_status out
                          = Some (Server.status t')))).
  { intros u RU.
    destruct (JS.same_value_zero (JStr taskId) key) eqn:E.
    - apply same_value_zero_from_str in E. subst key.
      exists u. split; [|auto].
      apply tasks_get_set_same. now apply same_value_zero_from_str.
    - exists t. split; [|auto].
      rewrite tasks_get_set_other; auto.
      intros ->. rewrite (proj2 (same_value_zero_from_str _ _) eq_refl) in E.
      discriminate. }
  destruct out as [d|e]; step.
  - cbn [fst Server.reported_status] in *.
    destruct (JS.nullish d); step; [exists t; auto|].
    destruct (JS.is_str (JS.prop d "status") "success"); step.
    + apply SET. reflexivity.
    + destruct (JS.is_str (JS.prop d "status") "failed"); step.
      * apply SET. reflexivity.
      * exists t; auto.
  - exists t; auto.
Qed.

(** C2, as the code has it.  Over any run of polls a stored task stays
    stored and a terminal status never goes back to "processing"; one poll
    either keeps a task's status or, for the polled id alone, sets it to
    the terminal status the provider reports in that poll, whatever the
    stored status was. *)
Theorem status_changes_follow_upstream (w : Server.World) (key : JSValue)
  (t : Server.GenerationTask) :
  Server.tasks_get key (Server.tasks w) = Some t ->
  (forall taskIds : list string,
     exists t',
       Server.tasks_get key
         (Server.tasks (Server.poll_all provider KEY taskIds w)) = Some t'
       /\ (Server.status t <> Server.processing ->
           Server.status t' <> Server.processing))
  /\ (forall taskId : string,
       exists t',
         Server.tasks_get key (Server.tasks (snd (get_api_status taskId w)))
           = Some t'
         /\ (Server.status t' = Server.status t
             \/ (key = JStr taskId
                 /\ Server.status t' <> Server.processing
                 /\ Server.video_report provider KEY taskId w
                    = Some (Server.status t')))).
Proof.
  intros H. split.
  - intros taskIds. revert w t H.
    induction taskIds as [|taskId later IH]; intros w t H.
    + exists t. auto.
    + destruct (status_poll_step taskId w key t H) as (u & G & C).
      destruct (IH _ u G) as (t' & G' & C').
      exists t'. split; [exact G'|].
      intros T. apply C'. destruct C as [-> | (_ & R)]; [exact T|].
      eapply reported_status_terminal. exact R.
  - intros taskId.
    destruct (status_poll_step taskId w key t H) as (u & G & C).
    exists u. split; [exact G|].
    destruct C as [C | (K & R)]; [now left|right].
    repeat split; auto. eapply reported_status_terminal. exact R.
Qed.

End StatusEndpoint.

(** C2, as stated, fails: a stored task that a first poll moved to
    "success" is moved to "failed" by a second poll, the provider
    reporting "failed" that time. *)
Lemma status_success_then_failed :
  Scenario.stored_status Scenario.flipping = Some Server.processing
  /\ Scenario.stored_status Scenario.flipping_once = Some Server.success
  /\ Scenario.stored_status Scenario.flipping_twice = Some Server.failed
  /\ ~ Server.forward_only Server.success Server.failed.
Proof.
  repeat split; try (vm_compute; reflexivity).
  intros [E | E]; discriminate.
Qed.


(* ===================================================================== *)
(** * The generation orchestrator *)
(* ===================================================================== *)

Section Orchestrator.

Context {PState : Type}.
Variable provider : PState -> Server.Request -> Server.Outcome * N * PState.
Variable KEY : string.

#[local] Abbreviation post_api_generate := (Server.post_api_generate provider KEY).
#[local] Abbreviation generateLyrics := (Server.generateLyrics provider KEY).
#[local] Abbreviation generateImage := (Server.generateImage provider KEY).
#[local] Abbreviation generateMusic := (Server.generateMusic provider KEY).
#[local] Abbreviation generateVideo := (Server.generateVideo provider KEY).
#[local] Abbreviation resolve_image_url := (Server.resolve_image_url provider KEY).
#[local] Abbreviation poll_image := (Server.poll_image provider KEY).
#[local] Abbreviation M := (@Server.M PState).
#[local] Abbreviation quiet c := (@Server.quiet PState _ c).
#[local] Abbreviation lyrics_request theme :=
  (Server.post_request KEY "/lyrics_generation" (Server.lyrics_payload theme)).
#[local] Abbreviation failure e :=
  (Server.mkResponse 500
     (JS.json [("error", JS.or (JStr (message e))
                               (JStr "Failed to generate anime opening"))])).

Lemma call_responded (r : Server.Request) (w : Server.World) (d : JSValue)
  (latency : N) (p' : PState) :
  provider (Server.upstream w) r = (Server.Responded d, latency, p') ->
  Server.call provider r w
    = (Ok d, Server.answered w r (Server.Responded d) latency p').
Proof. intros H. unfold Server.call. now rewrite H. Qed.

Lemma generateLyrics_run (theme : string) (w : Server.World)
  (out : Server.Outcome) (latency : N) (p' : PState) :
  provider (Server.upstream w) (lyrics_request theme) = (out, latency, p') ->
  generateLyrics theme w
    = (Ok (Server.chosen_lyrics theme out),
       Server.answered w (lyrics_request theme) out latency p').
Proof.
  intros H.
  unfold Server.generateLyrics, Server.try_catch, Server.bind,
    Server.minimaxRequest, Server.call, Server.lift, Server.ret, JS.member.
  rewrite H. destruct out as [d|e]; [|reflexivity].
  destruct d; reflexivity.
Qed.

Lemma default_lyrics_truthy (theme : string) :
  JS.truthy (JStr (Server.getDefaultLyrics theme)) = true.
Proof. reflexivity. Qed.

Lemma chosen_lyrics_truthy (theme : string) (out : Server.Outcome) :
  JS.truthy (Server.chosen_lyrics theme out) = true.
Proof.
  destruct out as [d|e]; [|reflexivity].
  unfold Server.chosen_lyrics. rewrite truthy_or, default_lyrics_truthy.
  apply orb_true_r.
Qed.

Ltac unfold_m :=
  unfold Server.try_catch, Server.bind, Server.lift, Server.ret,
    Server.sleep, Server.queryImageStatus, Server.minimaxRequest,
    Server.call.

(** One round of the loop, by what the query comes to. *)
Lemma poll_image_round (n : nat) (id u : JSValue) (w : Server.World)
  (out : Server.Outcome) (latency : N) (p' : PState) :
  let w1 := Server.mkWorld (Server.upstream w) (Server.now w + 2000)
              (Server.log w ++ [Server.Timer (Server.now w) 2000])
              (Server.tasks w) in
  provider (Server.upstream w) (Server.image_query KEY id)
    = (out, latency, p') ->
  poll_image (S n) id u w =
    match out with
    | Server.Responded d =>
        if Server.says_success out
        then (Ok (Server.polled_image_url d),
              Server.answered w1 (Server.image_query KEY id) out latency p')
        else poll_image n id u
               (Server.answered w1 (Server.image_query KEY id) out latency p')
    | Server.Rejected _ =>
        poll_image n id u
          (Server.answered w1 (Server.image_query KEY id) out latency p')
    end.
Proof.
  intros w1 H. cbn [Server.poll_image]. unfold_m.
  cbn [Server.upstream]. fold (Server.image_query KEY id). rewrite H.
  destruct out as [d|e]; [|reflexivity].
  cbn [Server.says_success].
  destruct (JS.is_str (JS.opt d "status") "success"); reflexivity.
Qed.

Lemma spaced_earlier (t t' : N) (qs : list (N * Server.Outcome)) :
  (t' <= t)%N -> Server.spaced t qs -> Server.spaced t' qs.
Proof.
  destruct qs as [|[t1 out] later]; simpl; auto.
  intros L [H S]. split; [lia|exact S].
Qed.

Lemma image_queries_rounds (id : JSValue) (qs : list (N * Server.Outcome)) :
  Server.image_queries (Server.rounds KEY id qs) = qs.
Proof.
  induction qs as [|[t out] later IH]; [reflexivity|].
  cbn [Server.rounds Server.image_queries].
  replace (Server.is_image_query (Server.image_query KEY id)) with true
    by (symmetry; apply String.eqb_refl).
  now rewrite IH.
Qed.

(** The loop always comes to an end without throwing; it adds to the log
    the rounds of its queries and nothing else, and leaves the registry
    alone. *)
Lemma poll_image_trace (n : nat) (id u : JSValue) (w : Server.World) :
  exists (qs : list (N * Server.Outcome)) (v : JSValue) (w' : Server.World),
    poll_image n id u w = (Ok v, w')
    /\ Server.log w' = Server.log w ++ Server.rounds KEY id qs
    /\ Server.tasks w' = Server.tasks w
    /\ length qs <= n
    /\ Server.spaced (Server.now w) qs
    /\ Server.loop_end n u qs v.
Proof.
  revert w. induction n as [|n IH]; intros w.
  - exists [], u, w. cbn. rewrite app_nil_r.
    repeat split; auto. right. repeat split; auto.
  - destruct (provider (Server.upstream w) (Server.image_query KEY id))
      as [[out latency] p'] eqn:P.
    rewrite (poll_image_round n id u w out latency p' P).
    set (w1 := Server.mkWorld (Server.upstream w) (Server.now w + 2000)
                 (Server.log w ++ [Server.Timer (Server.now w) 2000])
                 (Server.tasks w)).
    set (w2 := Server.answered w1 (Server.image_query KEY id) out latency p').
    assert (LOG : forall evs,
               Server.log w2 ++ evs
               = Server.log w
                   ++ Server.Timer (Server.now w + 2000 - 2000) 2000
                   :: Server.Call (Server.now w + 2000)
                        (Server.image_query KEY id) out :: evs).
    { intros evs. subst w2 w1. cbn. rewrite N.add_sub.
      now rewrite <- !app_assoc. }
    assert (MISS : Server.says_success out = false ->
              exists qs v w',
                poll_image n id u w2 = (Ok v, w')
                /\ Server.log w' = Server.log w ++ Server.rounds KEY id qs
                /\ Server.tasks w' = Server.tasks w
                /\ length qs <= S n
                /\ Server.spaced (Server.now w) qs
                /\ Server.loop_end (S n) u qs v).
    { intros M. destruct (IH w2) as (qs & v & w' & E & L & T & B & S & R).
      exists ((Server.now w + 2000, out)%N :: qs), v, w'.
      split; [exact E|]. split; [rewrite L; apply LOG|].
      split; [exact T|]. split; [cbn; lia|]. split.
      - cbn. split; [lia|]. eapply spaced_earlier; [|exact S].
        subst w2 w1. cbn. lia.
      - destruct R as [(front & t & d & Q & F & Y & V) | (F & Len & V)].
        + left. exists ((Server.now w + 2000, out)%N :: front), t, d.
          rewrite Q. repeat split; auto.
        + right. repeat split; auto. cbn. now rewrite Len. }
    destruct out as [d|e]; [|apply MISS; reflexivity].
    destruct (Server.says_success (Server.Responded d)) eqn:Y;
      [|apply MISS; reflexivity].
    exists [(Server.now w + 2000, Server.Responded d)%N],
      (Server.polled_image_url d), w2.
    split; [reflexivity|]. split; [rewrite <- (app_nil_r (Server.log w2));
      apply LOG|].
    split; [reflexivity|]. split; [cbn; lia|]. split; [cbn; split; [lia|auto]|].
    left. exists [], (Server.now w + 2000)%N, d. repeat split; auto.
Qed.

(** What a run that answers 200 went through. *)
Lemma generate_200 (req : Server.GenerateForm) (w w' : Server.World)
  (r : Server.Response) :
  post_api_generate req w = (Ok r, w') ->
  Server.code r = 200%N ->
  let theme := Server.form_theme req in
  exists imageResult w1 imageUrl w2 lyrics w3 musicResult w4 taskId w5,
    JS.truthy (JStr KEY) = true
    /\ generateImage (Server.image_prompt theme) w = (Ok imageResult, w1)
    /\ resolve_image_url imageResult w1 = (Ok imageUrl, w2)
    /\ generateLyrics theme w2 = (Ok lyrics, w3)
    /\ generateMusic theme lyrics w3 = (Ok musicResult, w4)
    /\ (if JS.truthy imageUrl
        then exists videoResult,
               generateVideo imageUrl theme w4 = (Ok videoResult, w5)
               /\ taskId = Server.video_task_id videoResult
        else taskId = JNull /\ w5 = w4)
    /\ w' = (if JS.truthy taskId
             then Server.registered taskId
                    (Server.mkTask theme imageUrl
                       (Server.music_url musicResult) lyrics
                       Server.processing (Server.now w5) JUndefined) w5
             else w5)
    /\ r = Server.mkResponse 200
             (Server.generated taskId (Server.music_url musicResult)
                imageUrl lyrics).
Proof.
  intros H C theme. revert H.
  unfold Server.post_api_generate, Server.try_catch.
  fold theme.
  destruct (JS.truthy (JStr KEY)) eqn:K; cbn [negb].
  2:{ unfold Server.ret. intros [= <- <-]. discriminate. }
  unfold Server.bind at 1.
  destruct (generateImage _ w) as [[imageResult|e] w1] eqn:E1.
  2:{ unfold Server.ret. intros [= <- <-]. discriminate. }
  unfold Server.bind at 1.
  destruct (resolve_image_url imageResult w1) as [[imageUrl|e] w2] eqn:E2.
  2:{ unfold Server.ret. intros [= <- <-]. discriminate. }
  unfold Server.bind at 1.
  destruct (generateLyrics theme w2) as [[lyrics|e] w3] eqn:E3.
  2:{ unfold Server.ret. intros [= <- <-]. discriminate. }
  unfold Server.bind at 1.
  destruct (generateMusic theme lyrics w3) as [[musicResult|e] w4] eqn:E4.
  2:{ unfold Server.ret. intros [= <- <-]. discriminate. }
  unfold Server.bind at 1.
  destruct (JS.truthy imageUrl) eqn:TI.
  - unfold Server.bind at 1.
    destruct (generateVideo imageUrl theme w4) as [[videoResult|e] w5] eqn:E5.
    2:{ unfold Server.ret. intros [= <- <-]. discriminate. }
    unfold Server.ret at 1.
    intros H.
    exists imageResult, w1, imageUrl, w2, lyrics, w3, musicResult, w4,
      (Server.video_task_id videoResult), w5.
    rewrite TI.
    do 5 (split; [first [reflexivity | eassumption]|]).
    split; [exists videoResult; split; [eassumption|reflexivity]|].
    revert H. unfold Server.bind, Server.ret, Server.date_now,
      Server.registry_set, Server.registered.
    destruct (JS.truthy (Server.video_task_id videoResult));
      intros [= <- <-]; split; reflexivity.
  - unfold Server.ret at 1. intros H.
    exists imageResult, w1, imageUrl, w2, lyrics, w3, musicResult, w4,
      JNull, w4.
    rewrite TI.
    do 5 (split; [first [reflexivity | eassumption]|]).
    split; [split; reflexivity|].
    revert H. unfold Server.bind, Server.ret. cbn.
    intros [= <- <-]; split; reflexivity.
Qed.

Lemma is_undefined_eq (v : JSValue) :
  JS.is_undefined v = true -> v = JUndefined.
Proof. destruct v; simpl; congruence. Qed.

(** Reading the 200 body back. *)
Lemma generated_fields (taskId musicUrl imageUrl lyrics : JSValue) :
  let b := Server.generated taskId musicUrl imageUrl lyrics in
  JS.prop b "status" = Server.processing_or_completed taskId
  /\ JS.prop b "taskId" = taskId
  /\ JS.prop b "musicUrl" = musicUrl
  /\ JS.prop b "imageUrl" = imageUrl
  /\ JS.prop b "lyrics" = lyrics
  /\ (JS.is_undefined taskId = false -> JS.has_field b "taskId" taskId).
Proof.
  unfold Server.generated, JS.json, Server.processing_or_completed,
    JS.has_field.
  destruct (JS.truthy taskId);
    (destruct (JS.is_undefined taskId) eqn:A;
       [apply is_undefined_eq in A; subst|]);
    (destruct (JS.is_undefined musicUrl) eqn:B;
       [apply is_undefined_eq in B; subst|]);
    (destruct (JS.is_undefined imageUrl) eqn:C;
       [apply is_undefined_eq in C; subst|]);
    (destruct (JS.is_undefined lyrics) eqn:D;
       [apply is_undefined_eq in D; subst|]);
    cbn [filter snd negb JS.is_undefined];
    rewrite ?A, ?B, ?C, ?D; cbn; repeat split; auto; discriminate.
Qed.

Lemma call_frame (r : Server.Request) (w w' : Server.World)
  (x : Result JSValue) :
  Server.call provider r w = (x, w') -> Server.tasks w' = Server.tasks w.
Proof.
  unfold Server.call. destruct (provider _ _) as [[[d|e] latency] p'];
    intros [= <- <-]; reflexivity.
Qed.

(** The image step: it never throws, logs the rounds of its queries and
    nothing else, and leaves the registry alone. *)
Lemma resolve_image_url_trace (imageResult : JSValue) (w : Server.World) :
  let id := Server.image_task_id imageResult in
  exists (qs : list (N * Server.Outcome)) (found : JSValue)
         (w' : Server.World),
    resolve_image_url imageResult w
      = (Ok (if JS.truthy found then found
             else Server.direct_image_url imageResult), w')
    /\ Server.log w' = Server.log w ++ Server.rounds KEY id qs
    /\ Server.tasks w' = Server.tasks w
    /\ length qs <= 5
    /\ Server.spaced (Server.now w) qs
    /\ (if JS.truthy id then Server.loop_end 5 JNull qs found
        else qs = [] /\ found = JNull).
Proof.
  intros id. unfold Server.resolve_image_url. fold id.
  destruct (JS.truthy id) eqn:T.
  - destruct (poll_image_trace 5 id JNull w)
      as (qs & v & w' & E & L & F & B & S & R).
    exists qs, v, w'. unfold Server.bind. rewrite E.
    split; [destruct (JS.truthy v); reflexivity|]. auto 10.
  - exists [], JNull, w. cbn. rewrite app_nil_r. auto 10.
Qed.

Lemma generateLyrics_frame (theme : string) (w w' : Server.World)
  (x : Result JSValue) :
  generateLyrics theme w = (x, w') ->
  Server.tasks w' = Server.tasks w
  /\ exists out, x = Ok (Server.chosen_lyrics theme out).
Proof.
  destruct (provider (Server.upstream w) (lyrics_request theme))
    as [[out latency] p'] eqn:P.
  rewrite (generateLyrics_run theme w out latency p' P).
  intros [= <- <-]. split; [reflexivity|now exists out].
Qed.

(** A 200 reply and the registry: the body is built from the task id the
    video step came to, and the registry gains the task under that id
    exactly when the id is truthy. *)
Lemma generate_200_registry (req : Server.GenerateForm)
  (w w' : Server.World) (r : Server.Response) :
  post_api_generate req w = (Ok r, w') ->
  Server.code r = 200%N ->
  exists taskId musicUrl imageUrl lyrics createdAt,
    r = Server.mkResponse 200
          (Server.generated taskId musicUrl imageUrl lyrics)
    /\ Server.tasks w'
       = (if JS.truthy taskId
          then Server.tasks_set taskId
                 (Server.mkTask (Server.form_theme req) imageUrl musicUrl
                    lyrics Server.processing createdAt JUndefined)
                 (Server.tasks w)
          else Server.tasks w).
Proof.
  intros H C.
  destruct (generate_200 req w w' r H C)
    as (imageResult & w1 & imageUrl & w2 & lyrics & w3 & musicResult & w4
        & taskId & w5 & K & E1 & E2 & E3 & E4 & E5 & W & R).
  exists taskId, (Server.music_url musicResult), imageUrl, lyrics,
    (Server.now w5).
  split; [exact R|].
  apply call_frame in E1. apply call_frame in E4.
  apply generateLyrics_frame in E3. destruct E3 as [E3 _].
  destruct (resolve_image_url_trace imageResult w1)
    as (qs & found & w2' & E2' & _ & F2 & _).
  rewrite E2 in E2'. injection E2' as _ <-.
  assert (F5 : Server.tasks w5 = Server.tasks w).
  { destruct (JS.truthy imageUrl).
    - destruct E5 as (videoResult & E5 & _). apply call_frame in E5.
      congruence.
    - destruct E5 as [_ ->]. congruence. }
  rewrite W. destruct (JS.truthy taskId); cbn; now rewrite F5.
Qed.


Lemma call_ok_log (r : Server.Request) (w w' : Server.World) (d : JSValue) :
  Server.call provider r w = (Ok d, w') ->
  Server.log w'
  = Server.log w ++ [Server.Call (Server.now w) r (Server.Responded d)].
Proof.
  unfold Server.call. destruct (provider _ _) as [[[d0|e] latency] p'];
    intros [= <- <-]; reflexivity.
Qed.

Lemma falsy_video_task_id (v : JSValue) :
  JS.truthy v = false -> Server.video_task_id v = v.
Proof. destruct v; cbn; try discriminate; auto. Qed.

Lemma truthy_video_task_id (v : JSValue) :
  JS.truthy v = true -> JS.truthy (Server.video_task_id v) = true.
Proof.
  intros T. unfold Server.video_task_id. rewrite truthy_or, T.
  apply orb_true_r.
Qed.

(** C9, as the code has it.  In a 200 reply with an image URL, the last
    call logged is the video call; the task id is extracted from its
    answer, a truthy answer gives a truthy task id and status
    "processing", and a falsy answer gives status "completed".  Without
    an image URL the status is "completed" and the task id [null].  The
    extraction gives back the whole answer when neither [task_id] nor
    [task.task_id] is truthy in it, so the task id need not be a
    string. *)
Theorem generate_completed_cases (req : Server.GenerateForm)
  (w w' : Server.World) (r : Server.Response) :
  post_api_generate req w = (Ok r, w') ->
  Server.code r = 200%N ->
  let status := JS.prop (Server.body r) "status" in
  let taskId := JS.prop (Server.body r) "taskId" in
  let imageUrl := JS.prop (Server.body r) "imageUrl" in
  (JS.truthy imageUrl = true ->
   exists before t data videoResult,
     Server.log w'
     = before ++ [Server.Call t
                    (Server.post_request KEY "/video_generation" data)
                    (Server.Responded videoResult)]
     /\ taskId = Server.video_task_id videoResult
     /\ (JS.truthy videoResult = true ->
         JS.truthy taskId = true /\ status = JStr "processing")
     /\ (JS.truthy videoResult = false ->
         taskId = videoResult /\ status = JStr "completed"))
  /\ (JS.truthy imageUrl = false ->
      status = JStr "completed" /\ taskId = JNull)
  /\ (forall v : JSValue,
       JS.truthy (JS.opt v "task_id") = false ->
       JS.truthy (JS.opt (JS.opt v "task") "task_id") = false ->
       Server.video_task_id v = v).
Proof.
  intros H C status taskId imageUrl.
  destruct (generate_200 req w w' r H C)
    as (imageResult & w1 & iu & w2 & lyrics & w3 & musicResult & w4
        & tid & w5 & K & E1 & E2 & E3 & E4 & E5 & W & R).
  destruct (generated_fields tid (Server.music_url musicResult) iu lyrics)
    as (FS & FT & _ & FI & _ & _).
  subst status taskId imageUrl. rewrite R. cbn [Server.body].
  rewrite FS, FT, FI. unfold Server.processing_or_completed.
  split; [|split].
  - intros TI. rewrite TI in E5. destruct E5 as (videoResult & E5 & ->).
    apply call_ok_log in E5.
    assert (LW : Server.log w' = Server.log w5).
    { rewrite W.
      destruct (JS.truthy (Server.video_task_id videoResult)); reflexivity. }
    exists (Server.log w4), (Server.now w4).
    eexists. exists videoResult.
    split; [rewrite LW; exact E5|].
    split; [reflexivity|]. split.
    + intros TV. rewrite (truthy_video_task_id _ TV). auto.
    + intros TV. rewrite (falsy_video_task_id _ TV), TV. auto.
  - intros TI. rewrite TI in E5. destruct E5 as [-> _]. cbn. auto.
  - intros v A B. unfold Server.video_task_id, JS.or at 1 2.
    rewrite A, B. unfold JS.or.
    destruct (JS.truthy v); reflexivity.
Qed.




Lemma post_request_endpoint (endpoint endpoint' : string)
  (data data' : JSValue) :
  Server.post_request KEY endpoint data
  = Server.post_request KEY endpoint' data' ->
  endpoint = endpoint'.
Proof.
  unfold Server.post_request. intros [= U _].
  exact U.
Qed.

Lemma rounds_calls (id : JSValue) (qs : list (N * Server.Outcome))
  (t : N) (rq : Server.Request) (out : Server.Outcome) :
  In (Server.Call t rq out) (Server.rounds KEY id qs) ->
  rq = Server.image_query KEY id.
Proof.
  induction qs as [|[t0 out0] later IH]; cbn [Server.rounds In]; [tauto|].
  intros [E|[E|I]]; [discriminate|congruence|auto].
Qed.

Lemma call_run (rq : Server.Request) (w : Server.World) :
  exists out latency p',
    Server.call provider rq w
    = (match out with
       | Server.Responded d => Ok d
       | Server.Rejected e => Throw e
       end,
       Server.answered w rq out latency p').
Proof.
  unfold Server.call.
  destruct (provider (Server.upstream w) rq) as [[[d|e] latency] p'];
    [exists (Server.Responded d)|exists (Server.Rejected e)];
    exists latency, p'; reflexivity.
Qed.

(** The calls of a run, in the order they were issued, and the reply the
    run came to. *)
Lemma generate_trace (req : Server.GenerateForm) (w w' : Server.World)
  (r : Server.Response) :
  let theme := Server.form_theme req in
  post_api_generate req w = (Ok r, w') ->
  Server.log w' = Server.log w
  \/ (exists t data e,
        Server.log w'
        = Server.log w
            ++ [Server.Call t
                  (Server.post_request KEY "/image_generation" data)
                  (Server.Rejected e)])
  \/ (exists t1 data1 imageResult qs t3 lout t4 data4 mout tail,
        Server.log w'
        = Server.log w
            ++ Server.Call t1
                 (Server.post_request KEY "/image_generation" data1)
                 (Server.Responded imageResult)
            :: Server.rounds KEY (Server.image_task_id imageResult) qs
            ++ Server.Call t3 (lyrics_request theme) lout
            :: Server.Call t4
                 (Server.post_request KEY "/music_generation" data4) mout
            :: tail
        /\ JS.prop data4 "lyrics" = Server.chosen_lyrics theme lout
        /\ ((exists e, mout = Server.Rejected e /\ tail = [] /\ r = failure e)
            \/ (exists musicResult,
                  mout = Server.Responded musicResult
                  /\ ((tail = []
                       /\ Server.code r = 200%N
                       /\ JS.prop (Server.body r) "lyrics"
                          = Server.chosen_lyrics theme lout)
                      \/ (exists t5 data5 vout,
                            tail = [Server.Call t5
                                      (Server.post_request KEY
                                         "/video_generation" data5) vout]
                            /\ match vout with
                               | Server.Rejected e => r = failure e
                               | Server.Responded _ =>
                                   Server.code r = 200%N
                                   /\ JS.prop (Server.body r) "lyrics"
                                      = Server.chosen_lyrics theme lout
                               end))))).
Proof.
  intros theme. unfold Server.post_api_generate, Server.try_catch.
  fold theme.
  destruct (JS.truthy (JStr KEY)); cbn [negb].
  2:{ unfold Server.ret. intros [= <- <-]. now left. }
  unfold Server.bind at 1.
  unfold Server.generateImage at 1, Server.minimaxRequest at 1.
  match goal with
  | |- context [Server.call provider ?rq w] =>
      destruct (call_run rq w) as (iout & l1 & p1 & E1); rewrite E1
  end.
  destruct iout as [imageResult|e1].
  2:{ unfold Server.ret. intros [= <- <-]. right. left.
      do 3 eexists. reflexivity. }
  unfold Server.bind at 1.
  match goal with
  | |- context [resolve_image_url imageResult ?w1] =>
      destruct (resolve_image_url_trace imageResult w1)
        as (qs & found & w2 & E2 & L2 & _)
  end.
  rewrite E2.
  set (imageUrl := if JS.truthy found then found
                   else Server.direct_image_url imageResult).
  unfold Server.bind at 1.
  destruct (provider (Server.upstream w2) (lyrics_request theme))
    as [[lout l3] p3] eqn:P3.
  rewrite (generateLyrics_run theme w2 lout l3 p3 P3).
  unfold Server.bind at 1.
  unfold Server.generateMusic at 1, Server.minimaxRequest at 1.
  match goal with
  | |- context [Server.call provider ?rq ?w3] =>
      destruct (call_run rq w3) as (mout & l4 & p4 & E4); rewrite E4
  end.
  assert (REST : forall (tail : list Server.Event) (w5 : @Server.World PState) data4,
            Server.log w5
            = Server.log
                (Server.answered
                   (Server.answered w2 (lyrics_request theme) lout l3 p3)
                   (Server.post_request KEY "/music_generation" data4)
                   mout l4 p4) ++ tail ->
            Server.log w5
            = Server.log w
                ++ Server.Call (Server.now w)
                     (Server.post_request KEY "/image_generation"
                        (Server.image_payload (Server.image_prompt theme)))
                     (Server.Responded imageResult)
                :: Server.rounds KEY (Server.image_task_id imageResult) qs
                ++ Server.Call (Server.now w2) (lyrics_request theme) lout
                :: Server.Call (Server.now w2 + l3)
                     (Server.post_request KEY "/music_generation" data4) mout
                :: tail).
  { intros tail w5 data4 ->. cbn [Server.answered Server.log].
    rewrite L2. cbn [Server.answered Server.log].
    rewrite <- !app_assoc. reflexivity. }
  destruct mout as [musicResult|e4].
  2:{ unfold Server.ret. intros [= <- <-]. right. right.
      do 10 eexists. split; [apply (REST []); now rewrite app_nil_r|].
      split; [reflexivity|]. left. eauto. }
  unfold Server.bind at 1.
  destruct (JS.truthy imageUrl).
  - unfold Server.bind at 1.
    unfold Server.generateVideo at 1, Server.minimaxRequest at 1.
    match goal with
    | |- context [Server.call provider ?rq ?w4] =>
        destruct (call_run rq w4) as (vout & l5 & p5 & E5); rewrite E5
    end.
    destruct vout as [videoResult|e5].
    + unfold Server.ret at 1.
      unfold Server.bind, Server.ret, Server.date_now, Server.registry_set.
      destruct (generated_fields (Server.video_task_id videoResult)
                  (Server.music_url musicResult) imageUrl
                  (Server.chosen_lyrics theme lout))
        as (_ & _ & _ & _ & FL & _).
      destruct (JS.truthy (Server.video_task_id videoResult));
        intros [= <- <-]; right; right;
        (do 10 eexists; split;
         [eapply (REST [_]); reflexivity|];
         split; [reflexivity|]; right; eexists; split; [reflexivity|];
         right; do 3 eexists; split; [reflexivity|];
         split; [reflexivity|exact FL]).
    + unfold Server.ret. intros [= <- <-]. right. right.
      do 10 eexists. split; [eapply (REST [_]); reflexivity|].
      split; [reflexivity|]. right. eexists. split; [reflexivity|].
      right. do 3 eexists. split; [reflexivity|]. reflexivity.
  - unfold Server.bind, Server.ret. cbn [JS.truthy].
    destruct (generated_fields JNull (Server.music_url musicResult) imageUrl
                (Server.chosen_lyrics theme lout))
      as (_ & _ & _ & _ & FL & _).
    intros [= <- <-]. right. right.
    do 10 eexists. split; [apply (REST []); now rewrite app_nil_r|].
    split; [reflexivity|]. right. eexists. split; [reflexivity|].
    left. split; [reflexivity|]. split; [reflexivity|exact FL].
Qed.

Lemma call_endpoint (t t' : N) (endpoint endpoint' : string)
  (data data' : JSValue) (out out' : Server.Outcome) :
  Server.Call t (Server.post_request KEY endpoint data) out
  = Server.Call t' (Server.post_request KEY endpoint' data') out' ->
  endpoint = endpoint'.
Proof.
  intros E.
  assert (X : Server.post_request KEY endpoint data
              = Server.post_request KEY endpoint' data') by congruence.
  exact (post_request_endpoint _ _ _ _ X).
Qed.

Ltac other_call R := exfalso; apply call_endpoint in R; discriminate R.

Lemma failure_error (e : JSError) :
  JS.prop (Server.body (failure e)) "error"
  = JS.or (JStr (message e)) (JStr "Failed to generate anime opening").
Proof.
  cbn [Server.body]. unfold JS.json, JS.or.
  destruct (JS.truthy (JStr (message e))); reflexivity.
Qed.

(** C3.  Take any run of the handler in which the lyrics call was
    rejected: the log of the run holds that call with its rejection.
    Then the run went on: right after that call it issued the music
    generation call, with the built-in fallback text for lyrics.  The
    run replies 200 or 500; a 200 reply carries the fallback text as its
    lyrics; a 500 reply comes from the music or the video generation
    call, which is then the last call of the run, was rejected, and
    gives the reply its error; and the reply is 200 whenever no call
    other than the lyrics call was rejected.  [generateLyrics] itself,
    when its call is rejected, returns the fallback text and does not
    throw. *)
Theorem lyrics_failure_falls_back (req : Server.GenerateForm)
  (w w' : Server.World) (r : Server.Response) (evs : list Server.Event)
  (t : N) (e : JSError) :
  let theme := Server.form_theme req in
  let fallback := JStr (Server.getDefaultLyrics theme) in
  post_api_generate req w = (Ok r, w') ->
  Server.log w' = Server.log w ++ evs ->
  In (Server.Call t (lyrics_request theme) (Server.Rejected e)) evs ->
  (forall theme0 w0 e0 latency p',
     provider (Server.upstream w0) (lyrics_request theme0)
     = (Server.Rejected e0, latency, p') ->
     generateLyrics theme0 w0
     = (Ok (JStr (Server.getDefaultLyrics theme0)),
        Server.answered w0 (lyrics_request theme0) (Server.Rejected e0)
          latency p'))
  /\ (exists before t' data out after,
        evs = before
                ++ Server.Call t (lyrics_request theme) (Server.Rejected e)
                :: Server.Call t'
                     (Server.post_request KEY "/music_generation" data) out
                :: after
        /\ JS.prop data "lyrics" = fallback)
  /\ (Server.code r = 200%N \/ Server.code r = 500%N)
  /\ (Server.code r = 200%N -> JS.prop (Server.body r) "lyrics" = fallback)
  /\ (Server.code r = 500%N ->
      exists front t' endpoint data e',
        evs = front
                ++ [Server.Call t' (Server.post_request KEY endpoint data)
                      (Server.Rejected e')]
        /\ (endpoint = "/music_generation"
            \/ endpoint = "/video_generation")
        /\ JS.prop (Server.body r) "error"
           = JS.or (JStr (message e'))
                   (JStr "Failed to generate anime opening"))
  /\ ((forall t' endpoint data e',
         endpoint <> "/lyrics_generation" ->
         ~ In (Server.Call t' (Server.post_request KEY endpoint data)
                 (Server.Rejected e')) evs) ->
      Server.code r = 200%N).
Proof.
  intros theme fallback H L R.
  split.
  { intros theme0 w0 e0 latency p' P.
    exact (generateLyrics_run theme0 w0 _ _ _ P). }
  destruct (generate_trace req w w' r H)
    as [T|[(t1 & data1 & e1 & T)
          |(t1 & data1 & imageResult & qs & t3 & lout & t4 & data4 & mout
            & tail & T & D & CASES)]];
    fold theme in T.
  - rewrite T in L. rewrite <- (app_nil_r (Server.log w)) in L at 1.
    apply app_inv_head in L. subst evs. destruct R.
  - rewrite T in L. apply app_inv_head in L. subst evs.
    destruct R as [R|[]]. other_call R.
  - fold theme in D, CASES.
    rewrite T in L. apply app_inv_head in L. subst evs.
    assert (LO : t3 = t /\ lout = Server.Rejected e).
    { destruct R as [R|R]; [other_call R|].
      apply in_app_or in R. destruct R as [R|R];
        [apply rounds_calls in R; discriminate R|].
      destruct R as [R|[R|R]]; [split; congruence|other_call R|].
      destruct CASES as [(e4 & _ & -> & _)|(musicResult & _ & [(-> & _)|V])];
        [destruct R|destruct R|].
      destruct V as (t5 & data5 & vout & -> & _).
      destruct R as [R|[]]. other_call R. }
    destruct LO as [-> ->]. cbn [Server.chosen_lyrics] in D, CASES.
    split.
    { exists (Server.Call t1
                (Server.post_request KEY "/image_generation" data1)
                (Server.Responded imageResult)
              :: Server.rounds KEY (Server.image_task_id imageResult) qs),
        t4, data4, mout, tail.
      split; [reflexivity|exact D]. }
    assert (OK : Server.code r = 200%N ->
                 JS.prop (Server.body r) "lyrics" = fallback ->
                 (Server.code r = 200%N \/ Server.code r = 500%N)
                 /\ (Server.code r = 200%N ->
                     JS.prop (Server.body r) "lyrics" = fallback)
                 /\ (Server.code r = 500%N ->
                     exists front t' endpoint data e',
                       (Server.Call t1
                          (Server.post_request KEY "/image_generation" data1)
                          (Server.Responded imageResult)
                        :: Server.rounds KEY
                             (Server.image_task_id imageResult) qs
                        ++ Server.Call t (lyrics_request theme)
                             (Server.Rejected e)
                        :: Server.Call t4
                             (Server.post_request KEY "/music_generation"
                                data4) mout
                        :: tail)
                       = front
                           ++ [Server.Call t'
                                 (Server.post_request KEY endpoint data)
                                 (Server.Rejected e')]
                       /\ (endpoint = "/music_generation"
                           \/ endpoint = "/video_generation")
                       /\ JS.prop (Server.body r) "error"
                          = JS.or (JStr (message e'))
                                  (JStr "Failed to generate anime opening"))
                 /\ ((forall t' endpoint data e',
                        endpoint <> "/lyrics_generation" ->
                        ~ In (Server.Call t'
                                (Server.post_request KEY endpoint data)
                                (Server.Rejected e'))
                             (Server.Call t1
                                (Server.post_request KEY "/image_generation"
                                   data1)
                                (Server.Responded imageResult)
                              :: Server.rounds KEY
                                   (Server.image_task_id imageResult) qs
                              ++ Server.Call t (lyrics_request theme)
                                   (Server.Rejected e)
                              :: Server.Call t4
                                   (Server.post_request KEY
                                      "/music_generation" data4) mout
                              :: tail)) ->
                     Server.code r = 200%N)).
    { intros C F. split; [now left|]. split; [auto|].
      split; [intros C'; rewrite C in C'; discriminate C'|auto]. }
    destruct CASES
      as [(e4 & -> & -> & ->)|(musicResult & -> & [(-> & C & F)|V])].
    + split; [now right|]. split; [discriminate|]. split.
      * intros _.
        exists (Server.Call t1
                  (Server.post_request KEY "/image_generation" data1)
                  (Server.Responded imageResult)
                :: Server.rounds KEY (Server.image_task_id imageResult) qs
                ++ [Server.Call t (lyrics_request theme)
                      (Server.Rejected e)]),
          t4, "/music_generation", data4, e4.
        split; [cbn [app]; rewrite <- app_assoc; reflexivity|].
        split; [now left|apply failure_error].
      * intros NO. exfalso.
        apply (NO t4 "/music_generation" data4 e4); [discriminate|].
        right. apply in_or_app. right. right. left. reflexivity.
    + exact (OK C F).
    + destruct V as (t5 & data5 & vout & -> & V).
      destruct vout as [videoResult|e5]; [exact (OK (proj1 V) (proj2 V))|].
      subst r.
      split; [now right|]. split; [discriminate|]. split.
      * intros _.
        exists (Server.Call t1
                  (Server.post_request KEY "/image_generation" data1)
                  (Server.Responded imageResult)
                :: Server.rounds KEY (Server.image_task_id imageResult) qs
                ++ [Server.Call t (lyrics_request theme)
                      (Server.Rejected e);
                    Server.Call t4
                      (Server.post_request KEY "/music_generation" data4)
                      (Server.Responded musicResult)]),
          t5, "/video_generation", data5, e5.
        split; [cbn [app]; rewrite <- app_assoc; reflexivity|].
        split; [now right|apply failure_error].
      * intros NO. exfalso.
        apply (NO t5 "/video_generation" data5 e5); [discriminate|].
        right. apply in_or_app. right. right. right. left. reflexivity.
Qed.

(** C10, as the code has it.  [generateLyrics] returns, whatever the
    provider does, and what it returns is truthy, so never empty,
    [undefined] or [null]: the fallback text when the call fails or the
    answer's lyrics are missing or empty, and otherwise the answer's
    lyrics as they are, a non-empty string whenever they are a string. *)
Theorem generateLyrics_never_empty (theme : string) (w : Server.World) :
  let out := fst (fst (provider (Server.upstream w) (lyrics_request theme))) in
  let given := Server.lyrics_field out in
  let fallback := JStr (Server.getDefaultLyrics theme) in
  exists v w',
    generateLyrics theme w = (Ok v, w')
    /\ JS.truthy v = true
    /\ v <> JStr "" /\ v <> JUndefined /\ v <> JNull
    /\ (JS.truthy given = false -> v = fallback)
    /\ (JS.truthy given = true -> v = given)
    /\ (JS.is_string given = true \/ JS.truthy given = false ->
        exists s, v = JStr s /\ s <> "").
Proof.
  intros out given fallback.
  destruct (provider (Server.upstream w) (lyrics_request theme))
    as [[o latency] p'] eqn:P.
  cbn [fst] in out. subst out.
  rewrite (generateLyrics_run theme w o latency p' P).
  eexists. eexists. split; [reflexivity|].
  assert (T := chosen_lyrics_truthy theme o).
  assert (F : JS.truthy given = false ->
              Server.chosen_lyrics theme o = fallback).
  { subst given. destruct o as [d|e]; [|reflexivity].
    cbn [Server.lyrics_field Server.chosen_lyrics]. unfold JS.or.
    now intros ->. }
  assert (G : JS.truthy given = true -> Server.chosen_lyrics theme o = given).
  { subst given. destruct o as [d|e]; [|discriminate].
    cbn [Server.lyrics_field Server.chosen_lyrics]. unfold JS.or.
    now intros ->. }
  split; [exact T|].
  split; [intros E; rewrite E in T; discriminate|].
  split; [intros E; rewrite E in T; discriminate|].
  split; [intros E; rewrite E in T; discriminate|].
  split; [exact F|]. split; [exact G|].
  intros D. destruct (JS.truthy given) eqn:Y.
  - destruct D as [D|D]; [|discriminate].
    rewrite (G eq_refl). destruct given; try discriminate.
    exists s. split; [reflexivity|]. now apply truthy_str.
  - rewrite (F eq_refl). eexists. split; [reflexivity|].
    apply truthy_str. reflexivity.
Qed.

(** ** Which steps can add image status queries to the log *)

Lemma quiet_ret {A : Type} (a : A) : quiet (Server.ret a : M A).
Proof. intros w. exists []. cbn. now rewrite app_nil_r. Qed.

Lemma quiet_date_now : quiet (Server.date_now : M N).
Proof. intros w. exists []. cbn. now rewrite app_nil_r. Qed.

Lemma quiet_registry_set (key : JSValue) (t : Server.GenerationTask) :
  quiet (Server.registry_set key t : M unit).
Proof. intros w. exists []. cbn. now rewrite app_nil_r. Qed.

Lemma quiet_minimaxRequest (endpoint : string) (data : JSValue) :
  quiet (Server.minimaxRequest provider KEY endpoint data).
Proof.
  intros w. unfold Server.minimaxRequest, Server.call.
  destruct (provider _ _) as [[[d|e] latency] p'];
    eexists; (split; [reflexivity|reflexivity]).
Qed.

Lemma image_queries_app (a b : list Server.Event) :
  Server.image_queries (a ++ b)
  = Server.image_queries a ++ Server.image_queries b.
Proof.
  induction a as [|[t ms|t r out] a IH]; cbn; auto.
  destruct (Server.is_image_query r); cbn; now rewrite IH.
Qed.

Lemma quiet_bind {A B : Type} (c : M A) (k : A -> M B) :
  quiet c -> (forall a, quiet (k a)) -> quiet (Server.bind c k).
Proof.
  intros QC QK w. unfold Server.bind.
  destruct (QC w) as (r1 & L1 & I1).
  destruct (c w) as [[a|e] w1]; cbn [snd] in *.
  - destruct (QK a w1) as (r2 & L2 & I2).
    exists (r1 ++ r2). rewrite L2, L1, app_assoc. split; [reflexivity|].
    now rewrite image_queries_app, I1, I2.
  - exists r1. auto.
Qed.

Lemma quiet_try_catch {A : Type} (c : M A) (h : JSError -> M A) :
  quiet c -> (forall e, quiet (h e)) -> quiet (Server.try_catch c h).
Proof.
  intros QC QH w. unfold Server.try_catch.
  destruct (QC w) as (r1 & L1 & I1).
  destruct (c w) as [[a|e] w1]; cbn [snd] in *.
  - exists r1. auto.
  - destruct (QH e w1) as (r2 & L2 & I2).
    exists (r1 ++ r2). rewrite L2, L1, app_assoc. split; [reflexivity|].
    now rewrite image_queries_app, I1, I2.
Qed.

Lemma quiet_lift {A : Type} (r : Result A) : quiet (Server.lift r : M A).
Proof. intros w. exists []. cbn. now rewrite app_nil_r. Qed.

Lemma quiet_generateLyrics (theme : string) : quiet (generateLyrics theme).
Proof.
  unfold Server.generateLyrics.
  apply quiet_try_catch; [|intros; apply quiet_ret].
  apply quiet_bind; [apply quiet_minimaxRequest|intros response].
  apply quiet_bind; [apply quiet_lift|intros; apply quiet_ret].
Qed.

Lemma quiet_if {A : Type} (b : bool) (c1 c2 : M A) :
  quiet c1 -> quiet c2 -> quiet (if b then c1 else c2).
Proof. destruct b; auto. Qed.

Lemma quiet_generateMusic (theme : string) (lyrics : JSValue) :
  quiet (generateMusic theme lyrics).
Proof. apply quiet_minimaxRequest. Qed.

Lemma quiet_generateVideo (imageUrl : JSValue) (theme : string) :
  quiet (generateVideo imageUrl theme).
Proof. apply quiet_minimaxRequest. Qed.

Ltac quiet_steps :=
  repeat first
    [ apply quiet_ret | apply quiet_date_now | apply quiet_registry_set
    | apply quiet_generateLyrics | apply quiet_generateMusic
    | apply quiet_generateVideo | apply quiet_if
    | apply quiet_bind | intro ].

Lemma loop_end_cases (n : nat) (u found : JSValue)
  (qs : list (N * Server.Outcome)) :
  Server.loop_end n u qs found ->
  (forall front t d,
     qs = front ++ [(t, Server.Responded d)] ->
     JS.opt d "status" = JStr "success" ->
     found = Server.polled_image_url d)
  /\ (Forall (fun q => Server.says_success (snd q) = false) qs ->
      length qs = n /\ found = u).
Proof.
  intros [(front & t & d & Q & F & Y & V) | (F & L & V)]; split.
  - intros front' t' d' Q' _. rewrite Q in Q'.
    apply app_inj_tail in Q'. destruct Q' as [_ Q']. now injection Q' as _ <-.
  - intros M. rewrite Q in M. apply Forall_app in M. destruct M as [_ M].
    inversion M as [|x l MX ML]; subst. cbn [snd] in MX. congruence.
  - intros front' t' d' Q' Y'. rewrite Q' in F.
    apply Forall_app in F. destruct F as [_ F].
    inversion F as [|x l MX ML]; subst. cbn [snd Server.says_success] in MX.
    rewrite Y' in MX. discriminate.
  - auto.
Qed.

(** C4.  In a run of the handler whose image call is answered with a
    task id, the image status queries logged are those of the polling
    loop: five at most, each one issued when a timer of 2000 ms armed
    after the query before it has fired, so 2000 ms or more after it;
    the loop stops at the first query that says success, with the URL
    of that answer ([image.image_url], or else the first of
    [data.image_urls]); when that URL is missing, and when all five
    queries have failed to say success, the image URL is the one of the
    image call's own answer: the first of its [data.image_urls], or
    else its [image.image_url]. *)
Theorem image_polling_is_bounded (req : Server.GenerateForm)
  (w : Server.World) (imageResult : JSValue) (latency : N) (p1 : PState) :
  let image_call :=
    Server.post_request KEY "/image_generation"
      (Server.image_payload (Server.image_prompt (Server.form_theme req))) in
  let id := Server.image_task_id imageResult in
  let w1 := Server.answered w image_call (Server.Responded imageResult)
                            latency p1 in
  JS.truthy (JStr KEY) = true ->
  provider (Server.upstream w) image_call
    = (Server.Responded imageResult, latency, p1) ->
  JS.truthy id = true ->
  exists (qs : list (N * Server.Outcome)) (found : JSValue)
         (rest : list Server.Event),
    Server.log (snd (post_api_generate req w))
      = Server.log w1 ++ Server.rounds KEY id qs ++ rest
    /\ Server.image_queries (Server.rounds KEY id qs ++ rest) = qs
    /\ length qs <= 5
    /\ Server.spaced (Server.now w1) qs
    /\ Server.loop_end 5 JNull qs found
    /\ (forall r,
         fst (post_api_generate req w) = Ok r ->
         Server.code r = 200%N ->
         JS.prop (Server.body r) "imageUrl"
         = if JS.truthy found then found
           else Server.direct_image_url imageResult)
    /\ (forall front t d,
         qs = front ++ [(t, Server.Responded d)] ->
         JS.opt d "status" = JStr "success" ->
         found = JS.or (JS.opt (JS.opt d "image") "image_url")
                       (JS.opt0 (JS.opt (JS.opt d "data") "image_urls")))
    /\ (Forall (fun q => Server.says_success (snd q) = false) qs ->
        length qs = 5 /\ found = JNull)
    /\ (forall r,
         fst (post_api_generate req w) = Ok r ->
         Server.code r = 200%N ->
         JS.truthy found = false ->
         let listed :=
           JS.opt0 (JS.opt (JS.opt imageResult "data") "image_urls") in
         let single := JS.opt (JS.opt imageResult "image") "image_url" in
         JS.prop (Server.body r) "imageUrl"
         = (if JS.truthy listed then listed else single)
         /\ (forall u others,
               JS.opt (JS.opt imageResult "data") "image_urls"
               = JArr (u :: others) ->
               JS.truthy u = true ->
               JS.prop (Server.body r) "imageUrl" = u)).
Proof.
  intros image_call id w1 K P T.
  destruct (resolve_image_url_trace imageResult w1)
    as (qs & found & w2 & E2 & L2 & F2 & B & S & R).
  fold id in R, L2. rewrite T in R.
  assert (E1 : generateImage (Server.image_prompt (Server.form_theme req)) w
               = (Ok imageResult, w1))
    by (apply call_responded; exact P).
  exists qs, found.
  assert (TAIL : exists rest,
             Server.log (snd (post_api_generate req w))
             = Server.log w2 ++ rest
             /\ Server.image_queries rest = []).
  { unfold Server.post_api_generate, Server.try_catch.
    rewrite K. cbn [negb]. unfold Server.bind at 1. rewrite E1.
    unfold Server.bind at 1. rewrite E2.
    match goal with
    | |- context [Server.bind (generateLyrics ?th) ?k w2] =>
        set (tail := Server.bind (generateLyrics th) k)
    end.
    assert (Q : quiet tail) by (subst tail; quiet_steps).
    destruct (Q w2) as (rest & LQ & IQ). exists rest.
    split; [|exact IQ]. rewrite <- LQ.
    destruct (tail w2) as [[a|e] w3]; reflexivity. }
  destruct TAIL as (rest & LT & IT). exists rest.
  assert (BODY : forall r,
             fst (post_api_generate req w) = Ok r ->
             Server.code r = 200%N ->
             JS.prop (Server.body r) "imageUrl"
             = if JS.truthy found then found
               else Server.direct_image_url imageResult).
  { intros r H C.
    assert (H' : post_api_generate req w
                 = (Ok r, snd (post_api_generate req w))).
    { rewrite <- H. apply surjective_pairing. }
    destruct (generate_200 req w _ r H' C)
      as (ir & w1' & iu & w2' & lyrics & w3 & musicResult & w4
          & tid & w5 & _ & E1' & E2' & _ & _ & _ & _ & RR).
    rewrite E1 in E1'. injection E1' as <- <-.
    rewrite E2 in E2'. injection E2' as <- <-.
    destruct (generated_fields tid (Server.music_url musicResult)
                (if JS.truthy found then found
                 else Server.direct_image_url imageResult) lyrics)
      as (_ & _ & _ & FI & _).
    rewrite RR. exact FI. }
  destruct (loop_end_cases 5 JNull found qs R) as [HIT MISS].
  split; [rewrite LT, L2; now rewrite app_assoc|].
  split; [rewrite image_queries_app, image_queries_rounds, IT;
          apply app_nil_r|].
  split; [exact B|]. split; [exact S|]. split; [exact R|].
  split; [exact BODY|]. split; [exact HIT|]. split; [exact MISS|].
  intros r H C NF listed single.
  assert (U := BODY r H C). rewrite NF in U.
  split; [exact U|].
  intros u others A TU. rewrite U.
  unfold Server.direct_image_url, JS.or. rewrite A.
  cbn [JS.opt0 hd]. now rewrite TU.
Qed.

End Orchestrator.

(* ===================================================================== *)
(** * The client's progress presenter *)
(* ===================================================================== *)

(** The [catch] block marks the steps that were processing in the array
    it closed over; when none was, it touches no step at all. *)
Lemma catch_block_stale (progress : list Client.GenerationStep)
  (err : JSError) (s : Client.AppState) :
  Forall (fun step => Client.is_processing (Client.status step) = false)
         progress ->
  Client.catch_block progress err s
  = Client.setError (Some (message err)) s.
Proof.
  unfold Client.catch_block.
  generalize (Client.setError (Some (message err)) s).
  intros a F. revert a.
  induction F as [|step rest H F IH]; intros a; cbn [fold_left].
  - reflexivity.
  - rewrite H. apply IH.
Qed.

(** Whenever the handler is started on steps none of which is processing,
    a throw leaves the steps as they were when it happened. *)
Lemma handleGenerate_catch_is_stale (s0 s' : Client.AppState)
  (net : list Client.Fetch) (f : Client.File) (e : JSError) :
  Client.image s0 = Some f ->
  Client.blank (Client.theme s0) = false ->
  Forall (fun step => Client.is_processing (Client.status step) = false)
         (Client.progress s0) ->
  Client.try_block net
    (Client.setResult None
       (Client.setError None (Client.setIsGenerating true s0)))
  = Client.Thrown e s' ->
  Client.progress (Client.handleGenerate s0 net) = Client.progress s'.
Proof.
  intros I B F T. unfold Client.handleGenerate.
  rewrite I, B, T. now rewrite catch_block_stale.
Qed.

(** C8 on the code.  First click after mount, the network down: the
    [fetch] rejects while step 1 is processing.  The [catch] block goes
    through the array of the render that created the handler, where
    every step is still pending, so step 1 is left processing; the error
    message is shown and the run is over. *)
Theorem handleGenerate_leaves_step_processing :
  let after := Client.handleGenerate Scenario.ready Scenario.offline in
  map Client.status (Client.progress after)
  = [Client.processing; Client.pending; Client.pending; Client.pending]
  /\ Client.error_message after = Some "Failed to fetch"
  /\ Client.isGenerating after = false
  /\ Client.try_block Scenario.offline
       (Client.setResult None
          (Client.setError None (Client.setIsGenerating true Scenario.ready)))
     = Client.Thrown (mkError "Failed to fetch")
         (Client.updateStep 1 Client.processing
            (Client.setResult None
               (Client.setError None
                  (Client.setIsGenerating true Scenario.ready)))).
Proof. cbv zeta. repeat split. Qed.

(* ===================================================================== *)
(** * The theorems at work on concrete runs *)
(* ===================================================================== *)

Lemma queries_after (l before after : list Server.Event)
  (qs : list (N * Server.Outcome)) :
  l = before ++ after ->
  Server.image_queries after = qs ->
  qs = Server.image_queries (skipn (length before) l).
Proof.
  intros -> <-. f_equal. induction before as [|e before IH]; [reflexivity|].
  exact IH.
Qed.


Lemma status_changes_follow_upstream_witness :
  Server.tasks_get (JStr "t1") (Server.tasks Scenario.flipping)
  = Some (Scenario.a_task Server.processing)
  /\ exists t',
       Server.tasks_get (JStr "t1") (Server.tasks Scenario.flipping_twice)
       = Some t'.
Proof.
  assert (H : Server.tasks_get (JStr "t1") (Server.tasks Scenario.flipping)
              = Some (Scenario.a_task Server.processing)) by reflexivity.
  split; [exact H|].
  destruct (status_changes_follow_upstream Scenario.scripted Scenario.key
              Scenario.flipping (JStr "t1") _ H) as [SEQ _].
  destruct (SEQ ["t1"; "t1"]) as (t' & G & _).
  exists t'. exact G.
Defined.

Lemma lyrics_failure_falls_back_witness :
  Scenario.lyrics_refused_run
  = (Ok (Scenario.reply_of (fst Scenario.lyrics_refused_run)),
     snd Scenario.lyrics_refused_run)
  /\ In (Server.Call 1120
           (Server.post_request Scenario.key "/lyrics_generation"
              (Server.lyrics_payload (Server.form_theme Scenario.form)))
           (fst Scenario.refused))
        (Server.log (snd Scenario.lyrics_refused_run))
  /\ Server.code (Scenario.reply_of (fst Scenario.lyrics_refused_run))
     = 200%N
  /\ JS.prop (Server.body (Scenario.reply_of (fst Scenario.lyrics_refused_run)))
             "lyrics"
     = JStr (Server.getDefaultLyrics
               "Epic battle scene with dramatic orchestra").
Proof.
  assert (H : Scenario.lyrics_refused_run
              = (Ok (Scenario.reply_of (fst Scenario.lyrics_refused_run)),
                 snd Scenario.lyrics_refused_run))
    by (vm_compute; reflexivity).
  assert (L : Server.log (snd Scenario.lyrics_refused_run)
              = Server.log Scenario.lyrics_refused
                  ++ Server.log (snd Scenario.lyrics_refused_run))
    by reflexivity.
  assert (R : In (Server.Call 1120
                    (Server.post_request Scenario.key "/lyrics_generation"
                       (Server.lyrics_payload
                          (Server.form_theme Scenario.form)))
                    (fst Scenario.refused))
                 (Server.log (snd Scenario.lyrics_refused_run)))
    by (vm_compute; auto).
  destruct (lyrics_failure_falls_back Scenario.scripted Scenario.key
              Scenario.form Scenario.lyrics_refused _ _ _ _ _ H L R)
    as (_ & _ & _ & F & _ & OK).
  assert (C : Server.code (Scenario.reply_of (fst Scenario.lyrics_refused_run))
              = 200%N).
  { apply OK. intros t' endpoint data e' D I. vm_compute in I.
    destruct I as [I|[I|[I|[I|[]]]]]; try discriminate I.
    injection I; intros; congruence. }
  split; [exact H|]. split; [exact R|]. split; [exact C|]. exact (F C).
Defined.

Lemma image_polling_is_bounded_witness :
  JS.truthy (JStr Scenario.key) = true
  /\ JS.truthy (Server.image_task_id (JObj [("id", JStr "img-1")])) = true
  /\ (exists qs,
        length qs = 2
        /\ length qs <= 5
        /\ Server.spaced 1120 qs
        /\ JS.prop (Server.body (Scenario.reply_of (fst Scenario.happy_run)))
                   "imageUrl" = JStr "https://cdn.example/i.png")
  /\ (exists qs,
        length qs = 5
        /\ Forall (fun q => Server.says_success (snd q) = false) qs
        /\ Server.spaced 1120 qs
        /\ JS.prop
             (Server.body (Scenario.reply_of (fst Scenario.exhausted_run)))
             "imageUrl" = JStr "https://cdn.example/direct.png").
Proof.
  split; [reflexivity|]. split; [reflexivity|]. split.
  - destruct (image_polling_is_bounded Scenario.scripted Scenario.key
                Scenario.form Scenario.happy (JObj [("id", JStr "img-1")])
                120%N (tl (Server.upstream Scenario.happy))
                eq_refl eq_refl eq_refl)
      as (qs & found & rest & L & I & B & S & R & U & HIT & _).
    pose proof (queries_after _ _ _ _ L I) as Q. vm_compute in Q.
    exists qs. split; [rewrite Q; reflexivity|].
    split; [exact B|]. split; [exact S|].
    rewrite (U (Scenario.reply_of (fst Scenario.happy_run)));
      [|vm_compute; reflexivity|vm_compute; reflexivity].
    rewrite (HIT [(3120%N, _)] 5240%N _ Q eq_refl). reflexivity.
  - pose (direct := JObj [("id", JStr "img-1");
                          ("data",
                           JObj [("image_urls",
                                  JArr [JStr "https://cdn.example/direct.png"])])]).
    assert (T : JS.truthy (Server.image_task_id direct) = true)
      by reflexivity.
    assert (P : Scenario.scripted (Server.upstream Scenario.exhausted)
                  (Server.post_request Scenario.key "/image_generation"
                     (Server.image_payload
                        (Server.image_prompt
                           (Server.form_theme Scenario.form))))
                = (Server.Responded direct, 120%N,
                   tl (Server.upstream Scenario.exhausted)))
      by reflexivity.
    destruct (image_polling_is_bounded Scenario.scripted Scenario.key
                Scenario.form Scenario.exhausted direct 120%N
                (tl (Server.upstream Scenario.exhausted)) eq_refl P T)
      as (qs & found & rest & L & I & B & S & R & _ & _ & MISS & FALL).
    pose proof (queries_after _ _ _ _ L I) as Q. vm_compute in Q.
    assert (M : Forall (fun q => Server.says_success (snd q) = false) qs)
      by (rewrite Q; repeat constructor).
    destruct (MISS M) as [LEN NONE].
    exists qs. split; [exact LEN|]. split; [exact M|]. split; [exact S|].
    destruct (FALL (Scenario.reply_of (fst Scenario.exhausted_run)))
      as [_ F]; [vm_compute; reflexivity|vm_compute; reflexivity
                 |rewrite NONE; reflexivity|].
    exact (F (JStr "https://cdn.example/direct.png") [] eq_refl eq_refl).
Defined.

Lemma generate_completed_cases_witness :
  Scenario.null_video_run
  = (Ok (Scenario.reply_of (fst Scenario.null_video_run)),
     snd Scenario.null_video_run)
  /\ Server.code (Scenario.reply_of (fst Scenario.null_video_run)) = 200%N
  /\ forall v : JSValue,
       JS.truthy (JS.opt v "task_id") = false ->
       JS.truthy (JS.opt (JS.opt v "task") "task_id") = false ->
       Server.video_task_id v = v.
Proof.
  assert (H : Scenario.null_video_run
              = (Ok (Scenario.reply_of (fst Scenario.null_video_run)),
                 snd Scenario.null_video_run)) by (vm_compute; reflexivity).
  assert (C : Server.code (Scenario.reply_of (fst Scenario.null_video_run))
              = 200%N) by (vm_compute; reflexivity).
  split; [exact H|]. split; [exact C|].
  destruct (generate_completed_cases Scenario.scripted Scenario.key
              Scenario.form Scenario.null_video _ _ H C) as (_ & _ & W).
  exact W.
Defined.

Lemma status_success_is_idempotent_witness :
  Server.tasks_get (JStr "t1") (Server.tasks Scenario.done)
  = Some (Scenario.a_task Server.processing)
  /\ option_map Server.status
       (Server.tasks_get (JStr "t1")
          (Server.tasks
             (snd (Server.get_api_status Scenario.scripted Scenario.key "t1"
                     Scenario.done))))
     = Some Server.success
  /\ option_map Server.videoUrl
       (Server.tasks_get (JStr "t1")
          (Server.tasks
             (snd (Server.get_api_status Scenario.scripted Scenario.key "t1"
                     Scenario.done))))
     = Some (JStr "https://cdn.example/v.mp4")
  /\ fst (Server.get_api_status Scenario.scripted Scenario.key "t1"
            (snd (Server.get_api_status Scenario.scripted Scenario.key "t1"
                    Scenario.done)))
     = fst (Server.get_api_status Scenario.scripted Scenario.key "t1"
              Scenario.done)
  /\ Server.tasks
       (snd (Server.get_api_status Scenario.scripted Scenario.key "t1"
               (snd (Server.get_api_status Scenario.scripted Scenario.key
                       "t1" Scenario.done))))
     = Server.tasks
         (snd (Server.get_api_status Scenario.scripted Scenario.key "t1"
                 Scenario.done)).
Proof.
  split; [reflexivity|].
  destruct (status_success_is_idempotent Scenario.scripted Scenario.key "t1"
              Scenario.done (Scenario.a_task Server.processing)
              (JObj [("status", JStr "success");
                     ("video", JObj [("video_url",
                                      JStr "https://cdn.example/v.mp4")])])
              120%N 120%N
              (tl (Server.upstream Scenario.done)) []
              eq_refl eq_refl eq_refl eq_refl)
    as (R1 & G & R2 & T & _).
  rewrite G. cbn [option_map Server.status Server.videoUrl].
  split; [reflexivity|]. split; [reflexivity|].
  split; [now rewrite R1, R2|exact T].
Defined.

Lemma status_unknown_task_is_404_witness :
  Server.tasks_get (JStr "nope") (Server.tasks Scenario.done) = None
  /\ Server.code
       (Scenario.reply_of
          (fst (Server.get_api_status Scenario.scripted Scenario.key "nope"
                  Scenario.done))) = 404%N
  /\ Server.log
       (snd (Server.get_api_status Scenario.scripted Scenario.key "nope"
               Scenario.done))
     = Server.log Scenario.done.
Proof.
  split; [reflexivity|].
  destruct (status_unknown_task_is_404 Scenario.scripted Scenario.key "nope"
              Scenario.done eq_refl) as [E L].
  split; [now rewrite E|exact L].
Defined.

Lemma status_processing_leaves_registry_witness :
  Server.tasks_get (JStr "t1") (Server.tasks Scenario.queued)
  = Some (Scenario.a_task Server.processing)
  /\ Server.tasks
       (snd (Server.get_api_status Scenario.scripted Scenario.key "t1"
               Scenario.queued))
     = Server.tasks Scenario.queued.
Proof.
  split; [reflexivity|].
  destruct (status_processing_leaves_registry Scenario.scripted Scenario.key
              "t1" Scenario.queued
              (snd (Server.get_api_status Scenario.scripted Scenario.key "t1"
                      Scenario.queued))
              (Server.mkResponse 200 (JObj [("status", JStr "processing")]))
              (Scenario.a_task Server.processing)
              eq_refl eq_refl eq_refl) as [T _].
  exact T.
Defined.

Lemma generateLyrics_never_empty_witness :
  exists v w',
    Server.generateLyrics Scenario.scripted Scenario.key "Intense sports"
      Scenario.numeric_lyrics = (Ok v, w')
    /\ JS.truthy v = true.
Proof.
  destruct (generateLyrics_never_empty Scenario.scripted Scenario.key
              "Intense sports" Scenario.numeric_lyrics)
    as (v & w' & E & T & _).
  exists v, w'. split; [exact E|exact T].
Defined.

(** C10, as stated, fails: the provider answers the lyrics call with a
    number for lyrics, and [generateLyrics] returns that number, which is
    no string. *)
Lemma generateLyrics_returns_a_number :
  fst (Server.generateLyrics Scenario.scripted Scenario.key "Intense sports"
         Scenario.numeric_lyrics) = Ok (JNum 42)
  /\ JS.is_string (JNum 42) = false.
Proof. split; reflexivity. Qed.

(** C9, as stated, fails: an image URL was obtained, the video call was
    answered with [null], and the status is "completed". *)
Lemma generate_completed_with_image_url :
  Server.code (Scenario.reply_of (fst Scenario.null_video_run)) = 200%N
  /\ JS.prop (Server.body (Scenario.reply_of (fst Scenario.null_video_run)))
             "imageUrl" = JStr "https://cdn.example/i.png"
  /\ JS.prop (Server.body (Scenario.reply_of (fst Scenario.null_video_run)))
             "status" = JStr "completed"
  /\ JS.prop (Server.body (Scenario.reply_of (fst Scenario.null_video_run)))
             "taskId" = JNull.
Proof. repeat split; vm_compute; reflexivity. Qed.

(* ===================================================================== *)
(** * More on the status endpoint *)
(* ===================================================================== *)

Lemma tasks_set_keys (key : JSValue) (t t0 : Server.GenerationTask)
  (m : Server.Registry) :
  Server.tasks_get key m = Some t0 ->
  map fst (Server.tasks_set key t m) = map fst m.
Proof.
  induction m as [|[k t1] rest IH]; cbn [Server.tasks_get Server.tasks_set];
    [discriminate|].
  destruct (JS.same_value_zero k key); [reflexivity|].
  intros H. cbn [map fst]. now rewrite IH.
Qed.

Section StatusRuns.

Context {PState : Type}.
Variable provider : PState -> Server.Request -> Server.Outcome * N * PState.
Variable KEY : string.

#[local] Abbreviation get_api_status := (Server.get_api_status provider KEY).
#[local] Abbreviation video_query taskId :=
  (Server.query_request KEY "/query/video_generation" (JStr taskId)).

Ltac unfold_poll :=
  unfold Server.get_api_status, Server.try_catch, Server.bind,
    Server.registry_get, Server.registry_set, Server.queryVideoStatus,
    Server.call, Server.lift, Server.mergeVideoAndAudio, Server.ret,
    JS.member.

Ltac poll_step :=
  cbn -[JS.is_str JS.json JS.or JS.opt JS.nullish_name Server.tasks_get
        Server.tasks_set Server.query_request Server.answered].

(** A poll of a registered task, by what the provider answers. *)
Lemma poll_registered (taskId : string) (w : Server.World)
  (task : Server.GenerationTask) (out : Server.Outcome) (latency : N)
  (p' : PState) :
  Server.tasks_get (JStr taskId) (Server.tasks w) = Some task ->
  provider (Server.upstream w) (video_query taskId) = (out, latency, p') ->
  let w1 := Server.answered w (video_query taskId) out latency p' in
  get_api_status taskId w =
  match out with
  | Server.Rejected e =>
      (Ok (Server.mkResponse 500
             (JS.json [("error", JS.or (JStr (message e))
                                       (JStr "Failed to query status"))])),
       w1)
  | Server.Responded d =>
      if JS.nullish d then
        (Ok (Server.mkResponse 500
               (JS.json
                  [("error",
                    JStr ("Cannot read properties of " ++ JS.nullish_name d
                            ++ " (reading 'status')"))])),
         w1)
      else if JS.is_str (JS.prop d "status") "success" then
        (Ok (Server.mkResponse 200
               (JS.json [("status", JStr "success");
                         ("videoUrl",
                          JS.opt (JS.prop d "video") "video_url")])),
         Server.registered (JStr taskId)
           (Server.set_videoUrl (JS.opt (JS.prop d "video") "video_url")
              (Server.set_status Server.success task)) w1)
      else if JS.is_str (JS.prop d "status") "failed" then
        (Ok (Server.mkResponse 200
               (JS.json [("status", JStr "failed");
                         ("error", JStr "Video generation failed")])),
         Server.registered (JStr taskId)
           (Server.set_status Server.failed task) w1)
      else
        (Ok (Server.mkResponse 200 (JS.json [("status", JStr "processing")])),
         w1)
  end.
Proof.
  intros G P w1. subst w1. unfold_poll. rewrite G, P.
  destruct out as [d|e]; [|reflexivity]. poll_step.
  destruct (JS.nullish d) eqn:NN; poll_step.
  - destruct d; try discriminate; reflexivity.
  - destruct (JS.is_str (JS.prop d "status") "success"); poll_step.
    + rewrite ?NN. reflexivity.
    + rewrite ?NN.
      destruct (JS.is_str (JS.prop d "status") "failed"); reflexivity.
Qed.

Lemma poll_unregistered (taskId : string) (w : Server.World) :
  Server.tasks_get (JStr taskId) (Server.tasks w) = None ->
  get_api_status taskId w
  = (Ok (Server.mkResponse 404 (JObj [("error", JStr "Task not found")])), w).
Proof. intros G. unfold_poll. now rewrite G. Qed.

Lemma error_body (a b : string) :
  b <> "" ->
  exists m,
    JS.json [("error", JS.or (JStr a) (JStr b))] = JObj [("error", JStr m)]
    /\ m <> ""
    /\ (a <> "" -> m = a).
Proof.
  intros B. unfold JS.json, JS.or.
  destruct (JS.truthy (JStr a)) eqn:T.
  - exists a. cbn. repeat split; auto. now apply truthy_str.
  - exists b. cbn. repeat split; auto.
    intros A. apply truthy_str in A. congruence.
Qed.

(** X9.  A poll of a registered task that the provider reports as
    "failed" answers 200 with [{status: "failed", error}], stores status
    "failed" on that task, keeping its other fields, and touches the
    entry of no other key. *)
Theorem status_failed_marks_task (taskId : string) (w : Server.World)
  (task : Server.GenerationTask) (d : JSValue) (latency : N) (p' : PState) :
  Server.tasks_get (JStr taskId) (Server.tasks w) = Some task ->
  provider (Server.upstream w) (video_query taskId)
    = (Server.Responded d, latency, p') ->
  JS.prop d "status" = JStr "failed" ->
  fst (get_api_status taskId w)
  = Ok (Server.mkResponse 200
          (JObj [("status", JStr "failed");
                 ("error", JStr "Video generation failed")]))
  /\ Server.tasks_get (JStr taskId)
       (Server.tasks (snd (get_api_status taskId w)))
     = Some (Server.set_status Server.failed task)
  /\ (forall key,
        key <> JStr taskId ->
        Server.tasks_get key (Server.tasks (snd (get_api_status taskId w)))
        = Server.tasks_get key (Server.tasks w)).
Proof.
  intros G P S.
  rewrite (poll_registered taskId w task _ latency p' G P).
  assert (NN : JS.nullish d = false)
    by (eapply prop_str_not_nullish; exact S).
  rewrite NN, S. cbn [JS.is_str].
  change ("failed" =? "success")%string with false.
  change ("failed" =? "failed")%string with true.
  cbn [fst snd Server.registered Server.tasks Server.answered].
  split; [reflexivity|]. split.
  - apply tasks_get_set_same. now apply same_value_zero_from_str.
  - intros key D. now apply tasks_get_set_other.
Qed.

(** X10.  When the provider rejects the status query of a registered
    task, or answers it with [null], the poll answers 500 with a
    non-empty error message (the rejection's own when it has one) and
    the registry is left as it was. *)
Theorem status_provider_error_is_500 (taskId : string) (w : Server.World)
  (task : Server.GenerationTask) (out : Server.Outcome) (latency : N)
  (p' : PState) :
  Server.tasks_get (JStr taskId) (Server.tasks w) = Some task ->
  provider (Server.upstream w) (video_query taskId) = (out, latency, p') ->
  (exists e, out = Server.Rejected e)
  \/ (exists d, out = Server.Responded d /\ JS.nullish d = true) ->
  exists m,
    fst (get_api_status taskId w)
    = Ok (Server.mkResponse 500 (JObj [("error", JStr m)]))
    /\ m <> ""
    /\ (forall e, out = Server.Rejected e -> message e <> "" -> m = message e)
    /\ Server.tasks (snd (get_api_status taskId w)) = Server.tasks w.
Proof.
  intros G P [[e ->] | (d & -> & NN)];
    rewrite (poll_registered taskId w task _ latency p' G P).
  - destruct (error_body (message e) "Failed to query status")
      as (m & B & M & A); [discriminate|].
    exists m. cbn [fst snd]. rewrite B. repeat split; auto.
    intros e0 [= <-]. exact A.
  - rewrite NN. cbn [fst snd]. eexists. split; [reflexivity|].
    split; [destruct d; discriminate|]. split; [discriminate|reflexivity].
Qed.

Lemma calls_app (a b : list Server.Event) :
  Server.calls (a ++ b) = Server.calls a + Server.calls b.
Proof.
  induction a as [|[t ms|t r out] a IH]; cbn; auto.
Qed.

Lemma delay_app (a b : list Server.Event) :
  Server.delay (a ++ b) = (Server.delay a + Server.delay b)%N.
Proof.
  induction a as [|[t ms|t r out] a IH]; cbn; auto. rewrite IH. lia.
Qed.

(** One poll: the keys stay, the log gains the one status query at most,
    and a stored task keeps the data it was generated from. *)
Lemma poll_once (taskId : string) (w : Server.World) :
  let w' := snd (get_api_status taskId w) in
  map fst (Server.tasks w') = map fst (Server.tasks w)
  /\ (exists rest,
        Server.log w' = Server.log w ++ rest
        /\ Server.calls rest <= 1
        /\ Server.delay rest = 0%N)
  /\ (forall key t,
        Server.tasks_get key (Server.tasks w) = Some t ->
        exists t',
          Server.tasks_get key (Server.tasks w') = Some t'
          /\ Server.same_generation t t').
Proof.
  intros w'. subst w'.
  assert (SAME : forall t, Server.same_generation t t)
    by (intros t; repeat split).
  destruct (Server.tasks_get (JStr taskId) (Server.tasks w)) as [task|] eqn:G.
  2:{ rewrite (poll_unregistered taskId w G). cbn [snd].
      split; [reflexivity|].
      split; [exists []; rewrite app_nil_r; repeat split; cbn; lia|].
      intros key t H. exists t. auto. }
  destruct (provider (Server.upstream w) (video_query taskId))
    as [[out latency] p'] eqn:P.
  rewrite (poll_registered taskId w task out latency p' G P).
  assert (LOG : exists rest,
             Server.log w ++ [Server.Call (Server.now w) (video_query taskId)
                                out]
             = Server.log w ++ rest
             /\ Server.calls rest <= 1 /\ Server.delay rest = 0%N)
    by (eexists; split; [reflexivity|split; [cbn; lia|reflexivity]]).
  assert (SET : forall u,
             Server.same_generation task u ->
             map fst (Server.tasks_set (JStr taskId) u (Server.tasks w))
             = map fst (Server.tasks w)
             /\ forall key t,
                 Server.tasks_get key (Server.tasks w) = Some t ->
                 exists t',
                   Server.tasks_get key
                     (Server.tasks_set (JStr taskId) u (Server.tasks w))
                   = Some t'
                   /\ Server.same_generation t t').
  { intros u U. split; [eapply tasks_set_keys; exact G|].
    intros key t H.
    destruct (JS.same_value_zero (JStr taskId) key) eqn:E.
    - apply same_value_zero_from_str in E. subst key.
      rewrite G in H. injection H as <-. exists u. split; [|exact U].
      apply tasks_get_set_same. now apply same_value_zero_from_str.
    - exists t. split; [|apply SAME].
      rewrite tasks_get_set_other; auto.
      intros ->. rewrite (proj2 (same_value_zero_from_str _ _) eq_refl) in E.
      discriminate. }
  assert (KEEP : forall key t,
             Server.tasks_get key (Server.tasks w) = Some t ->
             exists t',
               Server.tasks_get key (Server.tasks w) = Some t'
               /\ Server.same_generation t t')
    by (intros key t H; exists t; auto).
  destruct out as [d|e]; [|cbn [snd Server.answered Server.tasks Server.log];
                           auto].
  destruct (JS.nullish d);
    [cbn [snd Server.answered Server.tasks Server.log]; auto|].
  destruct (JS.is_str (JS.prop d "status") "success").
  { cbn [snd Server.registered Server.answered Server.tasks Server.log].
    destruct (SET (Server.set_videoUrl (JS.opt (JS.prop d "video") "video_url")
                     (Server.set_status Server.success task)))
      as [K F]; [repeat split|]. auto. }
  destruct (JS.is_str (JS.prop d "status") "failed").
  { cbn [snd Server.registered Server.answered Server.tasks Server.log].
    destruct (SET (Server.set_status Server.failed task)) as [K F];
      [repeat split|]. auto. }
  cbn [snd Server.answered Server.tasks Server.log]. auto.
Qed.

(** X11.  Polling never adds a key to the registry nor removes one, and
    a run of polls issues one provider query per poll at most, with no
    timer. *)
Theorem polls_keep_keys (taskIds : list string) (w : Server.World) :
  map fst (Server.tasks (Server.poll_all provider KEY taskIds w))
  = map fst (Server.tasks w)
  /\ exists rest,
       Server.log (Server.poll_all provider KEY taskIds w)
       = Server.log w ++ rest
       /\ Server.calls rest <= length taskIds
       /\ Server.delay rest = 0%N.
Proof.
  revert w. induction taskIds as [|taskId later IH]; intros w.
  - cbn. split; [reflexivity|]. exists [].
    rewrite app_nil_r. repeat split; cbn; lia.
  - cbn [Server.poll_all length].
    destruct (poll_once taskId w) as (K & (r1 & L1 & C1 & D1) & _).
    destruct (IH (snd (get_api_status taskId w)))
      as (K2 & r2 & L2 & C2 & D2).
    split; [now rewrite K2|].
    exists (r1 ++ r2). rewrite L2, L1, app_assoc.
    split; [reflexivity|]. rewrite calls_app, delay_app. split; lia.
Qed.

(** X12.  Whatever the polls and whatever the provider reports, a stored
    task stays stored and keeps its theme, image URL, music URL, lyrics
    and creation time. *)
Theorem polls_keep_generation (taskIds : list string) (w : Server.World)
  (key : JSValue) (t : Server.GenerationTask) :
  Server.tasks_get key (Server.tasks w) = Some t ->
  exists t',
    Server.tasks_get key
      (Server.tasks (Server.poll_all provider KEY taskIds w)) = Some t'
    /\ Server.same_generation t t'.
Proof.
  revert w t. induction taskIds as [|taskId later IH]; intros w t H.
  - exists t. split; [exact H|repeat split].
  - cbn [Server.poll_all].
    destruct (poll_once taskId w) as (_ & _ & F).
    destruct (F key t H) as (u & G & U).
    destruct (IH _ u G) as (t' & G' & U').
    exists t'. split; [exact G'|].
    destruct U as (A1 & A2 & A3 & A4 & A5), U' as (B1 & B2 & B3 & B4 & B5).
    repeat split; congruence.
Qed.

End StatusRuns.

(* ===================================================================== *)
(** * More on the generation orchestrator *)
(* ===================================================================== *)

Section OrchestratorRuns.

Context {PState : Type}.
Variable provider : PState -> Server.Request -> Server.Outcome * N * PState.
Variable KEY : string.

#[local] Abbreviation M := (@Server.M PState).
#[local] Abbreviation bounded k d c := (@Server.bounded PState _ k d c).
#[local] Abbreviation post_api_generate :=
  (Server.post_api_generate provider KEY).
#[local] Abbreviation image_call req :=
  (Server.post_request KEY "/image_generation"
     (Server.image_payload (Server.image_prompt (Server.form_theme req)))).

Lemma bounded_weaken {A : Type} (k k' : nat) (d d' : N) (c : M A) :
  k <= k' -> (d <= d')%N -> bounded k d c -> bounded k' d' c.
Proof.
  intros K D B w. destruct (B w) as (rest & L & C & T).
  exists rest. repeat split; auto; lia.
Qed.

Lemma bounded_still {A : Type} (c : M A) :
  (forall w, snd (c w) = w) -> bounded 0 0 c.
Proof.
  intros S w. exists []. rewrite S, app_nil_r. repeat split; cbn; lia.
Qed.

Lemma bounded_ret {A : Type} (a : A) : bounded 0 0 (Server.ret a : M A).
Proof. now apply bounded_still. Qed.

Lemma bounded_registry_set (key : JSValue) (t : Server.GenerationTask) :
  bounded 0 0 (Server.registry_set key t : M unit).
Proof.
  intros w. exists []. cbn. rewrite app_nil_r. repeat split; lia.
Qed.

Lemma bounded_call (r : Server.Request) :
  bounded 1 0 (Server.call provider r).
Proof.
  intros w. unfold Server.call.
  destruct (provider _ _) as [[[d|e] latency] p'];
    eexists; (split; [reflexivity|split; cbn; lia]).
Qed.

Lemma bounded_sleep (ms : N) : bounded 0 ms (Server.sleep ms : M unit).
Proof.
  intros w. eexists. split; [reflexivity|]. split; cbn; lia.
Qed.

Lemma bounded_bind {A B : Type} (k1 k2 : nat) (d1 d2 : N) (c : M A)
  (f : A -> M B) :
  bounded k1 d1 c -> (forall a, bounded k2 d2 (f a)) ->
  bounded (k1 + k2) (d1 + d2) (Server.bind c f).
Proof.
  intros BC BF w. unfold Server.bind.
  destruct (BC w) as (r1 & L1 & C1 & T1).
  destruct (c w) as [[a|e] w1]; cbn [snd] in *.
  - destruct (BF a w1) as (r2 & L2 & C2 & T2).
    exists (r1 ++ r2). rewrite L2, L1, app_assoc.
    split; [reflexivity|]. rewrite calls_app, delay_app. split; lia.
  - exists r1. repeat split; auto; lia.
Qed.

Lemma bounded_try_catch {A : Type} (k1 k2 : nat) (d1 d2 : N) (c : M A)
  (h : JSError -> M A) :
  bounded k1 d1 c -> (forall e, bounded k2 d2 (h e)) ->
  bounded (k1 + k2) (d1 + d2) (Server.try_catch c h).
Proof.
  intros BC BH w. unfold Server.try_catch.
  destruct (BC w) as (r1 & L1 & C1 & T1).
  destruct (c w) as [[a|e] w1]; cbn [snd] in *.
  - exists r1. repeat split; auto; lia.
  - destruct (BH e w1) as (r2 & L2 & C2 & T2).
    exists (r1 ++ r2). rewrite L2, L1, app_assoc.
    split; [reflexivity|]. rewrite calls_app, delay_app. split; lia.
Qed.

Lemma bounded_if {A : Type} (k : nat) (d : N) (b : bool) (c1 c2 : M A) :
  bounded k d c1 -> bounded k d c2 -> bounded k d (if b then c1 else c2).
Proof. destruct b; auto. Qed.

Lemma bounded_poll_image (n : nat) (id u : JSValue) :
  bounded n (2000 * N.of_nat n) (Server.poll_image provider KEY n id u).
Proof.
  induction n as [|n IH]; cbn [Server.poll_image].
  - apply bounded_ret.
  - apply (bounded_weaken (0 + (1 + n)) _
             (2000 + (0 + 2000 * N.of_nat n)));
      [lia|lia|].
    apply bounded_bind; [apply bounded_sleep|intros _].
    apply bounded_bind.
    + apply (bounded_weaken (1 + 0) _ (0 + 0)); [lia|lia|].
      apply bounded_try_catch; [|intros; apply bounded_ret].
      apply (bounded_weaken (1 + 0) _ (0 + 0)); [lia|lia|].
      apply bounded_bind; [apply bounded_call|intros statusResult].
      apply bounded_if; apply bounded_ret.
    + intros [found|]; [|exact IH].
      apply (bounded_weaken 0 _ 0); [lia|lia|apply bounded_ret].
Qed.

Lemma bounded_generateLyrics (theme : string) :
  bounded 1 0 (Server.generateLyrics provider KEY theme).
Proof.
  unfold Server.generateLyrics.
  apply (bounded_weaken (1 + 0) _ (0 + 0)); [lia|lia|].
  apply bounded_try_catch; [|intros; apply bounded_ret].
  apply (bounded_weaken (1 + 0) _ (0 + 0)); [lia|lia|].
  apply bounded_bind; [apply bounded_call|intros response].
  apply (bounded_weaken (0 + 0) _ (0 + 0)); [lia|lia|].
  apply bounded_bind; [now apply bounded_still|intros; apply bounded_ret].
Qed.

Lemma bounded_resolve_image_url (imageResult : JSValue) :
  bounded 5 10000 (Server.resolve_image_url provider KEY imageResult).
Proof.
  unfold Server.resolve_image_url.
  apply (bounded_weaken (5 + 0) _ (10000 + 0)); [lia|lia|].
  apply bounded_bind.
  - apply bounded_if; [apply (bounded_poll_image 5)|].
    apply (bounded_weaken 0 _ 0); [lia|lia|apply bounded_ret].
  - intros imageUrl. apply bounded_if; apply bounded_ret.
Qed.

(** What the handler does once the image call has been answered. *)
Lemma bounded_after_image (imageResult : JSValue)
  (k : JSValue -> M Server.Response) :
  (forall imageUrl, bounded 3 0 (k imageUrl)) ->
  bounded 8 10000
    (Server.bind (Server.resolve_image_url provider KEY imageResult) k).
Proof.
  intros K.
  apply (bounded_weaken (5 + 3) _ (10000 + 0)); [lia|lia|].
  apply bounded_bind; [apply bounded_resolve_image_url|exact K].
Qed.

Ltac bounded_tail_body :=
  apply (bounded_bind 1 2 0 0); [apply bounded_generateLyrics|intros ?lyrics];
  apply (bounded_bind 1 1 0 0);
    [unfold Server.generateMusic, Server.minimaxRequest; apply bounded_call
    |intros ?musicResult];
  apply (bounded_bind 1 0 0 0);
    [apply bounded_if;
       [apply (bounded_bind 1 0 0 0);
          [unfold Server.generateVideo, Server.minimaxRequest;
           apply bounded_call
          |intros; apply bounded_ret]
       |apply (bounded_weaken 0 _ 0); [lia|lia|apply bounded_ret]]
    |intros ?taskId];
  apply (bounded_bind 0 0 0 0);
    [apply bounded_if;
       [apply (bounded_bind 0 0 0 0);
          [apply bounded_still; reflexivity
          |intros; apply bounded_registry_set]
       |apply bounded_ret]
    |intros; apply bounded_ret].

Ltac bounded_tail := intros ?imageUrl; cbv beta; bounded_tail_body.

(** X4.  Whatever the provider does, one run of the handler issues nine
    provider calls at most and waits ten seconds at most on its timers. *)
Theorem generate_is_bounded (req : Server.GenerateForm) (w : Server.World) :
  exists rest,
    Server.log (snd (post_api_generate req w)) = Server.log w ++ rest
    /\ Server.calls rest <= 9
    /\ (Server.delay rest <= 10000)%N.
Proof.
  revert w. change (bounded 9 10000 (post_api_generate req)).
  unfold Server.post_api_generate.
  apply (bounded_try_catch 9 0 10000 0); [|intros; apply bounded_ret].
  apply bounded_if;
    [apply (bounded_weaken 0 _ 0); [lia|lia|apply bounded_ret]|].
  apply (bounded_bind 1 8 0 10000);
    [unfold Server.generateImage, Server.minimaxRequest; apply bounded_call|].
  intros imageResult. apply bounded_after_image. bounded_tail.
Qed.

Lemma health_reports_key :
  JS.prop (Server.body (Server.get_api_health KEY)) "apiKeyConfigured"
  = JBool (JS.truthy (JStr KEY)).
Proof. reflexivity. Qed.

(** X1.  Without an API key the handler answers 500 with the
    configuration message and leaves the world as it was: no provider
    call, no registry entry; the health check then reports
    [apiKeyConfigured: false].  With a key the health check reports
    [true] and every run starts with the image generation call. *)
Theorem generate_key_guard (req : Server.GenerateForm) (w : Server.World) :
  (KEY = "" ->
   post_api_generate req w
   = (Ok (Server.mkResponse 500
            (JObj [("error",
                    JStr "MiniMax API key not configured. Please set MINIMAX_API_KEY environment variable.")])),
      w)
   /\ JS.prop (Server.body (Server.get_api_health KEY)) "apiKeyConfigured"
      = JBool false)
  /\ (KEY <> "" ->
      JS.prop (Server.body (Server.get_api_health KEY)) "apiKeyConfigured"
      = JBool true
      /\ exists out rest,
           Server.log (snd (post_api_generate req w))
           = Server.log w
               ++ Server.Call (Server.now w) (image_call req) out :: rest).
Proof.
  split.
  - intros ->. split; reflexivity.
  - intros K. apply truthy_str in K. rewrite health_reports_key, K.
    split; [reflexivity|].
    unfold Server.post_api_generate, Server.try_catch.
    rewrite K. cbn [negb]. unfold Server.bind at 1.
    unfold Server.generateImage at 1, Server.minimaxRequest at 1.
    unfold Server.call at 1.
    destruct (provider (Server.upstream w) (image_call req))
      as [[[imageResult|e] latency] p1].
    + match goal with
      | |- context [Server.bind (Server.resolve_image_url _ _ _) ?k ?w1] =>
          assert (B : bounded 8 10000
                        (Server.bind
                           (Server.resolve_image_url provider KEY imageResult)
                           k))
            by (apply bounded_after_image; bounded_tail);
          destruct (B w1) as (rest & L & _);
          destruct (Server.bind
                      (Server.resolve_image_url provider KEY imageResult)
                      k w1) as [[r|e] w2]
      end;
        cbn [snd Server.ret] in *; exists (Server.Responded imageResult), rest;
        rewrite L; cbn [Server.answered Server.log];
        now rewrite <- app_assoc.
    + exists (Server.Rejected e), []. cbn. reflexivity.
Qed.

Lemma call_throw (r : Server.Request) (w w' : Server.World) (e : JSError) :
  Server.call provider r w = (Throw e, w') ->
  Server.log w'
  = Server.log w ++ [Server.Call (Server.now w) r (Server.Rejected e)]
  /\ Server.tasks w' = Server.tasks w.
Proof.
  unfold Server.call. destruct (provider _ _) as [[[d|e0] latency] p'];
    intros [= <- <-]; split; reflexivity.
Qed.

(** A 500 reply of a server that has its key: where it comes from. *)
Lemma generate_500 (req : Server.GenerateForm) (w w' : Server.World)
  (r : Server.Response) :
  post_api_generate req w = (Ok r, w') ->
  Server.code r = 500%N ->
  JS.truthy (JStr KEY) = true ->
  exists before t endpoint data e,
    Server.log w'
    = before ++ [Server.Call t (Server.post_request KEY endpoint data)
                   (Server.Rejected e)]
    /\ (endpoint = "/image_generation" \/ endpoint = "/music_generation"
        \/ endpoint = "/video_generation")
    /\ r = Server.mkResponse 500
             (JS.json [("error",
                        JS.or (JStr (message e))
                              (JStr "Failed to generate anime opening"))])
    /\ Server.tasks w' = Server.tasks w.
Proof.
  intros H C K. revert H.
  unfold Server.post_api_generate, Server.try_catch.
  rewrite K. cbn [negb]. unfold Server.bind at 1.
  destruct (Server.generateImage provider KEY _ w)
    as [[imageResult|e] w1] eqn:E1.
  2:{ unfold Server.ret. intros [= <- <-].
      apply call_throw in E1. destruct E1 as [L T].
      do 5 eexists. split; [exact L|]. auto. }
  apply call_frame in E1.
  unfold Server.bind at 1.
  destruct (resolve_image_url_trace provider KEY imageResult w1)
    as (qs & found & w2 & E2 & _ & F2 & _).
  rewrite E2. unfold Server.bind at 1.
  destruct (Server.generateLyrics provider KEY _ w2)
    as [[lyrics|e] w3] eqn:E3.
  2:{ apply generateLyrics_frame in E3. destruct E3 as (_ & out & E3).
      discriminate. }
  apply generateLyrics_frame in E3. destruct E3 as [F3 _].
  unfold Server.bind at 1.
  destruct (Server.generateMusic provider KEY _ lyrics w3)
    as [[musicResult|e] w4] eqn:E4.
  2:{ unfold Server.ret. intros [= <- <-].
      apply call_throw in E4. destruct E4 as [L T].
      do 5 eexists. split; [exact L|]. split; [auto|]. split; [reflexivity|].
      congruence. }
  apply call_frame in E4.
  unfold Server.bind at 1.
  destruct (JS.truthy (if JS.truthy found then found
                       else Server.direct_image_url imageResult)).
  - unfold Server.bind at 1.
    destruct (Server.generateVideo provider KEY _ _ w4)
      as [[videoResult|e] w5] eqn:E5.
    2:{ unfold Server.ret. intros [= <- <-].
        apply call_throw in E5. destruct E5 as [L T].
        do 5 eexists. split; [exact L|]. split; [auto|].
        split; [reflexivity|]. congruence. }
    unfold Server.bind, Server.ret, Server.date_now, Server.registry_set.
    destruct (JS.truthy (Server.video_task_id videoResult));
      intros [= <- <-]; discriminate.
  - unfold Server.bind, Server.ret. cbn [JS.truthy].
    intros [= <- <-]. discriminate.
Qed.

(** X2.  A run that answers 500, for want of a key or because a step
    threw, leaves the registry as it was: a failed generation registers
    no task. *)
Theorem generate_failure_registers_nothing (req : Server.GenerateForm)
  (w w' : Server.World) (r : Server.Response) :
  post_api_generate req w = (Ok r, w') ->
  Server.code r = 500%N ->
  Server.tasks w' = Server.tasks w.
Proof.
  intros H C. destruct (JS.truthy (JStr KEY)) eqn:K.
  - destruct (generate_500 req w w' r H C K)
      as (before & t & endpoint & data & e & _ & _ & _ & T).
    exact T.
  - revert H. unfold Server.post_api_generate, Server.try_catch.
    rewrite K. cbn. now intros [= <- <-].
Qed.

(** X3.  When a server that has its key answers 500, the last call it
    issued is the image, music or video generation call, that call was
    rejected, and the reply's error is the rejection's message (the
    text "Failed to generate anime opening" when the message is
    empty). *)
Theorem generate_failure_reports_rejection (req : Server.GenerateForm)
  (w w' : Server.World) (r : Server.Response) :
  post_api_generate req w = (Ok r, w') ->
  Server.code r = 500%N ->
  KEY <> "" ->
  exists before t endpoint data e m,
    Server.log w'
    = before ++ [Server.Call t (Server.post_request KEY endpoint data)
                   (Server.Rejected e)]
    /\ (endpoint = "/image_generation" \/ endpoint = "/music_generation"
        \/ endpoint = "/video_generation")
    /\ Server.body r = JObj [("error", JStr m)]
    /\ (message e <> "" -> m = message e)
    /\ (message e = "" -> m = "Failed to generate anime opening").
Proof.
  intros H C K. apply truthy_str in K.
  destruct (generate_500 req w w' r H C K)
    as (before & t & endpoint & data & e & L & E & R & _).
  exists before, t, endpoint, data, e.
  rewrite R. cbn [Server.body]. unfold JS.json, JS.or.
  destruct (String.eqb_spec (message e) "") as [Z|Z].
  - exists "Failed to generate anime opening".
    rewrite Z. cbn. repeat split; auto. congruence.
  - exists (message e).
    rewrite (proj2 (truthy_str (message e)) Z). cbn.
    repeat split; auto. congruence.
Qed.


(** X6.  A task id that a 200 reply carries as a non-empty string is
    known to the status endpoint from then on: the registry holds under
    it a task in status "processing" made of the reply's own lyrics,
    image URL and music URL, and a poll for it is not answered 404. *)
Theorem generate_then_status_finds_task (req : Server.GenerateForm)
  (w w' : Server.World) (r : Server.Response) (s : string) :
  post_api_generate req w = (Ok r, w') ->
  Server.code r = 200%N ->
  JS.prop (Server.body r) "taskId" = JStr s ->
  s <> "" ->
  (exists task,
     Server.tasks_get (JStr s) (Server.tasks w') = Some task
     /\ Server.status task = Server.processing
     /\ Server.theme task = Server.form_theme req
     /\ Server.lyrics task = JS.prop (Server.body r) "lyrics"
     /\ Server.imageUrl task = JS.prop (Server.body r) "imageUrl"
     /\ Server.musicUrl task = JS.prop (Server.body r) "musicUrl"
     /\ Server.videoUrl task = JUndefined)
  /\ exists r2 w2,
       Server.get_api_status provider KEY s w' = (Ok r2, w2)
       /\ Server.code r2 <> 404%N.
Proof.
  intros H C T S.
  destruct (generate_200_registry provider KEY req w w' r H C)
    as (tid & musicUrl & imageUrl & lyrics & createdAt & R & REG).
  destruct (generated_fields tid musicUrl imageUrl lyrics)
    as (_ & FT & FM & FI & FL & _).
  rewrite R in T |- *. cbn [Server.body] in *. rewrite FM, FI, FL.
  rewrite FT in T. subst tid.
  rewrite (proj2 (truthy_str s) S) in REG.
  assert (G : Server.tasks_get (JStr s) (Server.tasks w')
              = Some (Server.mkTask (Server.form_theme req) imageUrl musicUrl
                        lyrics Server.processing createdAt JUndefined)).
  { rewrite REG. apply tasks_get_set_same.
    now apply same_value_zero_from_str. }
  split; [eexists; split; [exact G|]; repeat split|].
  destruct (provider (Server.upstream w')
              (Server.query_request KEY "/query/video_generation" (JStr s)))
    as [[out latency] p'] eqn:P.
  rewrite (poll_registered provider KEY s w' _ out latency p' G P).
  destruct out as [d|e]; [|do 2 eexists; split; [reflexivity|discriminate]].
  destruct (JS.nullish d);
    [do 2 eexists; split; [reflexivity|discriminate]|].
  destruct (JS.is_str (JS.prop d "status") "success");
    [do 2 eexists; split; [reflexivity|discriminate]|].
  destruct (JS.is_str (JS.prop d "status") "failed");
    do 2 eexists; (split; [reflexivity|discriminate]).
Qed.

Lemma same_value_zero_not_string (k0 k : JSValue) (s : string) :
  JS.is_string k = false ->
  JS.same_value_zero k0 k = true ->
  JS.same_value_zero k0 (JStr s) = false.
Proof. destruct k0, k; cbn; congruence. Qed.

Lemma tasks_get_str_set_other (k : JSValue) (s : string)
  (t : Server.GenerationTask) (m : Server.Registry) :
  JS.is_string k = false ->
  Server.tasks_get (JStr s) (Server.tasks_set k t m)
  = Server.tasks_get (JStr s) m.
Proof.
  intros N. induction m as [|[k0 t0] rest IH];
    cbn [Server.tasks_set Server.tasks_get].
  - destruct k; try discriminate; reflexivity.
  - destruct (JS.same_value_zero k0 k) eqn:E;
      cbn [Server.tasks_set Server.tasks_get].
    + now rewrite (same_value_zero_not_string k0 k s N E).
    + destruct (JS.same_value_zero k0 (JStr s)); auto.
Qed.

Lemma tasks_set_object (fields : list (string * JSValue))
  (t : Server.GenerationTask) (m : Server.Registry) :
  Server.tasks_set (JObj fields) t m = m ++ [(JObj fields, t)].
Proof.
  induction m as [|[k0 t0] rest IH]; cbn [Server.tasks_set app];
    [reflexivity|].
  replace (JS.same_value_zero k0 (JObj fields)) with false
    by (destruct k0; reflexivity).
  now rewrite IH.
Qed.

(** X7.  When the task id of a 200 reply is not a string, the status
    endpoint cannot reach the task: every lookup by a path parameter
    finds what it found before the run.  When that id is an object (the
    whole answer of the video call), the task is stored all the same,
    at the end of the registry. *)
Theorem generate_non_string_id_is_unreachable (req : Server.GenerateForm)
  (w w' : Server.World) (r : Server.Response) :
  post_api_generate req w = (Ok r, w') ->
  Server.code r = 200%N ->
  JS.is_string (JS.prop (Server.body r) "taskId") = false ->
  (forall s : string,
     Server.tasks_get (JStr s) (Server.tasks w')
     = Server.tasks_get (JStr s) (Server.tasks w))
  /\ (forall fields,
       JS.prop (Server.body r) "taskId" = JObj fields ->
       exists task,
         Server.tasks w' = Server.tasks w ++ [(JObj fields, task)]
         /\ Server.status task = Server.processing).
Proof.
  intros H C N.
  destruct (generate_200_registry provider KEY req w w' r H C)
    as (tid & musicUrl & imageUrl & lyrics & createdAt & R & REG).
  destruct (generated_fields tid musicUrl imageUrl lyrics)
    as (_ & FT & _).
  rewrite R in N |- *. cbn [Server.body] in *. rewrite FT in N |- *.
  rewrite REG. split.
  - intros s. destruct (JS.truthy tid); [|reflexivity].
    now apply tasks_get_str_set_other.
  - intros fields ->. cbn [JS.truthy]. rewrite tasks_set_object.
    eexists. split; reflexivity.
Qed.



End OrchestratorRuns.

(* ===================================================================== *)
(** * More on the client *)
(* ===================================================================== *)

Lemma steps_updateStep (stepId : nat) (st : Client.StepStatus)
  (s : Client.AppState) :
  Client.steps (Client.updateStep stepId st s) = Client.steps s.
Proof.
  unfold Client.steps, Client.updateStep, Client.setProgress.
  cbn [Client.progress]. rewrite map_map. apply map_ext.
  intros step. destruct (Nat.eqb (Client.id step) stepId); reflexivity.
Qed.

Lemma untouched_refl (s : Client.AppState) : Client.untouched s s.
Proof. repeat split. Qed.

Lemma untouched_trans (a b c : Client.AppState) :
  Client.untouched a b -> Client.untouched b c -> Client.untouched a c.
Proof.
  intros (A1 & A2 & A3 & A4 & A5) (B1 & B2 & B3 & B4 & B5).
  repeat split; congruence.
Qed.

Lemma untouched_updateStep (stepId : nat) (st : Client.StepStatus)
  (s : Client.AppState) :
  Client.untouched s (Client.updateStep stepId st s).
Proof. repeat split. apply steps_updateStep. Qed.

Lemma untouched_setResult (r : option Client.GenerationResult)
  (s : Client.AppState) :
  Client.untouched s (Client.setResult r s).
Proof. repeat split. Qed.

Ltac untouched_steps :=
  repeat first
    [ apply untouched_refl
    | eapply untouched_trans; [|apply untouched_updateStep]
    | eapply untouched_trans; [|apply untouched_setResult] ].

Lemma poll_video_untouched (data : JSValue) (net : list Client.Fetch)
  (s : Client.AppState) :
  Client.untouched s (Client.run_state (Client.poll_video data net s)).
Proof.
  induction net as [|f later IH]; cbn [Client.poll_video Client.run_state];
    [apply untouched_refl|].
  destruct f as [e|ok [statusData|e]]; cbn [Client.run_state];
    try apply untouched_refl.
  destruct (JS.member statusData "status") as [reported|e];
    cbn [Client.run_state]; [|apply untouched_refl].
  destruct (JS.is_str reported "success"); cbn [Client.run_state];
    [untouched_steps|].
  destruct (JS.is_str reported "failed"); cbn [Client.run_state];
    [apply untouched_refl|exact IH].
Qed.

Lemma try_block_untouched (net : list Client.Fetch) (s : Client.AppState) :
  Client.untouched s (Client.run_state (Client.try_block net s)).
Proof.
  unfold Client.try_block.
  destruct net as [|[e|[|] [data|e]] later]; cbn [Client.run_state];
    try solve [untouched_steps].
  - destruct (JS.member data "status") as [st|e]; cbn [Client.run_state];
      [|untouched_steps].
    destruct (JS.is_str st "processing"); cbn [Client.run_state];
      [|untouched_steps].
    eapply untouched_trans; [|apply poll_video_untouched]. untouched_steps.
  - destruct (JS.member data "error") as [reason|e]; cbn [Client.run_state];
      untouched_steps.
Qed.

Lemma catch_block_untouched (progress : list Client.GenerationStep)
  (err : JSError) (s : Client.AppState) :
  Client.untouched (Client.setError (Some (message err)) s)
                   (Client.catch_block progress err s).
Proof.
  unfold Client.catch_block.
  generalize (Client.setError (Some (message err)) s). intros a.
  assert (G : forall b, Client.untouched a b ->
                        Client.untouched a
                          (fold_left
                             (fun acc step =>
                                if Client.is_processing (Client.status step)
                                then Client.updateStep (Client.id step)
                                       Client.error acc
                                else acc) progress b)).
  { induction progress as [|step rest IH]; intros b U; cbn [fold_left];
      [exact U|].
    apply IH. destruct (Client.is_processing (Client.status step));
      [|exact U].
    eapply untouched_trans; [exact U|apply untouched_updateStep]. }
  apply G. apply untouched_refl.
Qed.

(** X14.  Whatever the network answers, [handleGenerate] leaves the
    image, the theme and the steps shown (their ids and labels, in
    order) as they were: it only ever changes the steps' statuses, the
    flag, the result and the message. *)
Theorem handleGenerate_keeps_steps (s0 : Client.AppState)
  (net : list Client.Fetch) :
  Client.image (Client.handleGenerate s0 net) = Client.image s0
  /\ Client.theme (Client.handleGenerate s0 net) = Client.theme s0
  /\ Client.steps (Client.handleGenerate s0 net) = Client.steps s0.
Proof.
  unfold Client.handleGenerate.
  destruct (Client.image s0) as [f|] eqn:I; rewrite <- I; clear I;
    [|repeat split].
  destruct (Client.blank (Client.theme s0)); [repeat split|].
  fold (Client.begun s0).
  destruct (try_block_untouched net (Client.begun s0))
    as (T1 & T2 & _ & _ & T5).
  destruct (Client.try_block net (Client.begun s0)) as [s'|err s'|s'];
    cbn [Client.run_state] in T1, T2, T5.
  - split; [exact T1|]. split; [exact T2|exact T5].
  - destruct (catch_block_untouched (Client.progress s0) err s')
      as (C1 & C2 & _ & _ & C5).
    split; [exact (eq_trans C1 T1)|].
    split; [exact (eq_trans C2 T2)|exact (eq_trans C5 T5)].
  - split; [exact T1|]. split; [exact T2|exact T5].
Qed.


(** X17.  A run that has come to an end has cleared the generating
    flag; when it ended on a throw the message shown is the exception's
    own, and when it ended without one no message is shown.  A run
    still awaiting a reply keeps the flag set. *)
Theorem handleGenerate_ends_cleanly (s0 : Client.AppState)
  (net : list Client.Fetch) (f : Client.File) :
  Client.image s0 = Some f ->
  Client.blank (Client.theme s0) = false ->
  let after := Client.handleGenerate s0 net in
  match Client.try_block net (Client.begun s0) with
  | Client.Finished _ =>
      Client.isGenerating after = false /\ Client.error_message after = None
  | Client.Thrown e _ =>
      Client.isGenerating after = false
      /\ Client.error_message after = Some (message e)
  | Client.Awaiting _ =>
      Client.isGenerating after = true /\ Client.error_message after = None
  end.
Proof.
  intros I B after. subst after. unfold Client.handleGenerate.
  rewrite I, B. fold (Client.begun s0).
  destruct (try_block_untouched net (Client.begun s0))
    as (_ & _ & T3 & T4 & _).
  destruct (Client.try_block net (Client.begun s0)) as [s'|err s'|s'];
    cbn [Client.run_state] in T3, T4.
  - split; [reflexivity|exact T4].
  - destruct (catch_block_untouched (Client.progress s0) err s')
      as (_ & _ & _ & C4 & _).
    split; [reflexivity|exact C4].
  - split; [exact T3|exact T4].
Qed.

Lemma poll_video_skips (data : JSValue) (waiting net : list Client.Fetch)
  (s : Client.AppState) :
  forallb Client.keeps_polling waiting = true ->
  Client.poll_video data (waiting ++ net) s = Client.poll_video data net s.
Proof.
  induction waiting as [|f later IH]; [reflexivity|].
  cbn [forallb]. intros H. apply andb_prop in H. destruct H as [K F].
  destruct f as [e|ok [statusData|e]]; try discriminate.
  cbn [Client.keeps_polling] in K.
  apply andb_prop in K. destruct K as [K K3].
  apply andb_prop in K. destruct K as [K1 K2].
  apply negb_true_iff in K1, K2, K3.
  cbn [app Client.poll_video]. unfold JS.member. rewrite K1, K2, K3.
  now apply IH.
Qed.

Lemma begun_progress (s0 : Client.AppState) :
  Client.progress (Client.begun s0) = Client.progress s0.
Proof. reflexivity. Qed.

(** X15.  The run that succeeds: the server answers "processing", the
    polls are answered any number of times with neither success nor
    failure and then with success.  All four steps end completed, the
    result holds the video URL of the last answer and the music URL of
    the first, the flag is cleared and no message is shown. *)
Theorem handleGenerate_success (s0 : Client.AppState) (f : Client.File)
  (data statusData : JSValue) (waiting : list Client.Fetch) (ok : bool) :
  Client.image s0 = Some f ->
  Client.blank (Client.theme s0) = false ->
  map Client.id (Client.progress s0) = [1; 2; 3; 4] ->
  JS.prop data "status" = JStr "processing" ->
  forallb Client.keeps_polling waiting = true ->
  JS.prop statusData "status" = JStr "success" ->
  let after :=
    Client.handleGenerate s0
      (Client.Reply true (Ok data)
         :: waiting ++ [Client.Reply ok (Ok statusData)]) in
  map Client.status (Client.progress after)
  = [Client.completed; Client.completed; Client.completed; Client.completed]
  /\ Client.result after
     = Some (Client.mkResult (JS.prop statusData "videoUrl")
                             (JS.prop data "musicUrl"))
  /\ Client.isGenerating after = false
  /\ Client.error_message after = None.
Proof.
  intros I B IDS S W S' after.
  assert (NN : JS.nullish data = false)
    by (eapply prop_str_not_nullish; exact S).
  assert (NN' : JS.nullish statusData = false)
    by (eapply prop_str_not_nullish; exact S').
  assert (E : after =
            Client.setIsGenerating false
              (Client.updateStep 4 Client.completed
                 (Client.setResult
                    (Some (Client.mkResult (JS.prop statusData "videoUrl")
                                           (JS.prop data "musicUrl")))
                    (Client.updateStep 4 Client.processing
                       (Client.updateStep 3 Client.completed
                          (Client.updateStep 3 Client.processing
                             (Client.updateStep 2 Client.completed
                                (Client.updateStep 2 Client.processing
                                   (Client.updateStep 1 Client.completed
                                      (Client.updateStep 1 Client.processing
                                         (Client.begun s0))))))))))).
  { subst after. unfold Client.handleGenerate. rewrite I, B.
    fold (Client.begun s0). unfold Client.try_block.
    unfold JS.member at 1. rewrite NN, S.
    change (JS.is_str (JStr "processing") "processing") with true.
    cbv iota. rewrite poll_video_skips by exact W.
    cbn [Client.poll_video]. unfold JS.member. rewrite NN', S'.
    reflexivity. }
  rewrite E. clear E after.
  destruct s0 as [img th gen prog res err]. cbn [Client.progress] in IDS.
  destruct prog as [|[i1 l1 s1] [|[i2 l2 s2] [|[i3 l3 s3] [|[i4 l4 s4] [|]]]]];
    try discriminate.
  cbn in IDS. injection IDS as -> -> -> ->.
  repeat split.
Qed.

(** X16.  When the server's reply is anything but "processing" (a
    "completed" reply, say), the run ends at once: step 1 is completed,
    step 2 is left processing, the later steps are as they were, and
    neither a result nor a message is shown. *)
Theorem handleGenerate_completed_reply_stalls (s0 : Client.AppState)
  (f : Client.File) (data : JSValue) (later : list Client.Fetch) :
  Client.image s0 = Some f ->
  Client.blank (Client.theme s0) = false ->
  map Client.id (Client.progress s0) = [1; 2; 3; 4] ->
  JS.nullish data = false ->
  JS.is_str (JS.prop data "status") "processing" = false ->
  let after :=
    Client.handleGenerate s0 (Client.Reply true (Ok data) :: later) in
  map Client.status (Client.progress after)
  = Client.completed :: Client.processing
      :: skipn 2 (map Client.status (Client.progress s0))
  /\ Client.result after = None
  /\ Client.isGenerating after = false
  /\ Client.error_message after = None.
Proof.
  intros I B IDS NN S after.
  assert (E : after =
            Client.setIsGenerating false
              (Client.updateStep 2 Client.processing
                 (Client.updateStep 1 Client.completed
                    (Client.updateStep 1 Client.processing
                       (Client.begun s0))))).
  { subst after. unfold Client.handleGenerate. rewrite I, B.
    fold (Client.begun s0). unfold Client.try_block.
    unfold JS.member. rewrite NN, S. reflexivity. }
  rewrite E. clear E after.
  destruct s0 as [img th gen prog res err]. cbn [Client.progress] in IDS.
  destruct prog as [|[i1 l1 s1] [|[i2 l2 s2] [|[i3 l3 s3] [|[i4 l4 s4] [|]]]]];
    try discriminate.
  cbn in IDS. injection IDS as -> -> -> ->.
  repeat split.
Qed.

(* ===================================================================== *)
(** * The client against the server *)
(* ===================================================================== *)

(** The client on a reply that is not [ok] and carries an error text. *)
Lemma handleGenerate_error_reply (s0 : Client.AppState) (f : Client.File)
  (m : string) (later : list Client.Fetch) :
  Client.image s0 = Some f ->
  Client.blank (Client.theme s0) = false ->
  m <> "" ->
  let after :=
    Client.handleGenerate s0
      (Client.Reply false (Ok (JObj [("error", JStr m)])) :: later) in
  Client.error_message after = Some m /\ Client.isGenerating after = false.
Proof.
  intros I B M after. subst after. unfold Client.handleGenerate.
  rewrite I, B. fold (Client.begun s0). unfold Client.try_block.
  cbn [JS.member JS.nullish JS.prop JS.lookup].
  change ("error" =? "error")%string with true. cbv iota.
  unfold JS.or. rewrite (proj2 (truthy_str m) M). cbn [JS.to_string].
  match goal with
  | |- context [Client.catch_block ?p ?e ?s'] =>
      destruct (catch_block_untouched p e s') as (_ & _ & _ & C4 & _)
  end.
  split; [exact C4|reflexivity].
Qed.

Section ClientAndServer.

Context {PState : Type}.
Variable provider : PState -> Server.Request -> Server.Outcome * N * PState.
Variable KEY : string.

(** A 500 reply of the generation endpoint carries a non-empty text. *)
Lemma generate_500_body (req : Server.GenerateForm) (w w' : Server.World)
  (r : Server.Response) :
  Server.post_api_generate provider KEY req w = (Ok r, w') ->
  Server.code r = 500%N ->
  exists m, Server.body r = JObj [("error", JStr m)] /\ m <> "".
Proof.
  intros H C. destruct (JS.truthy (JStr KEY)) eqn:K.
  - destruct (generate_500 provider KEY req w w' r H C K)
      as (before & t & endpoint & data & e & _ & _ & R & _).
    destruct (error_body (message e) "Failed to generate anime opening")
      as (m & B & M & _); [discriminate|].
    exists m. rewrite R. cbn [Server.body]. auto.
  - revert H. unfold Server.post_api_generate, Server.try_catch.
    rewrite K. cbn. intros [= <- <-]. cbn.
    eexists. split; [reflexivity|discriminate].
Qed.

(** X18.  End to end: whenever the generation endpoint answers 500, the
    client that receives this reply ends its run showing the very text
    of the reply's error, which is never empty. *)
Theorem client_shows_server_error (req : Server.GenerateForm)
  (w w' : Server.World) (r : Server.Response) (s0 : Client.AppState)
  (f : Client.File) (later : list Client.Fetch) :
  Server.post_api_generate provider KEY req w = (Ok r, w') ->
  Server.code r = 500%N ->
  Client.image s0 = Some f ->
  Client.blank (Client.theme s0) = false ->
  exists m,
    Server.body r = JObj [("error", JStr m)]
    /\ m <> ""
    /\ Client.error_message
         (Client.handleGenerate s0 (Http.to_fetch r :: later)) = Some m
    /\ Client.isGenerating
         (Client.handleGenerate s0 (Http.to_fetch r :: later)) = false.
Proof.
  intros H C I B.
  destruct (generate_500_body req w w' r H C) as (m & R & M).
  exists m. split; [exact R|]. split; [exact M|].
  unfold Http.to_fetch. rewrite C, R.
  change ((200 <=? 500)%N && (500 <=? 299)%N) with false.
  exact (handleGenerate_error_reply s0 f m later I B M).
Qed.

(** A reply of the status endpoint other than 200 is an error text. *)
Lemma status_error_body (taskId : string) (w w' : Server.World)
  (r : Server.Response) :
  Server.get_api_status provider KEY taskId w = (Ok r, w') ->
  Server.code r <> 200%N ->
  (Server.code r = 404%N \/ Server.code r = 500%N)
  /\ exists m, Server.body r = JObj [("error", JStr m)].
Proof.
  intros H C. revert H.
  destruct (Server.tasks_get (JStr taskId) (Server.tasks w)) as [task|] eqn:G.
  2:{ rewrite (poll_unregistered provider KEY taskId w G).
      intros [= <- <-]. split; [now left|]. eexists. reflexivity. }
  destruct (provider (Server.upstream w)
              (Server.query_request KEY "/query/video_generation"
                 (JStr taskId))) as [[out latency] p'] eqn:P.
  rewrite (poll_registered provider KEY taskId w task out latency p' G P).
  destruct out as [d|e].
  - destruct (JS.nullish d).
    { intros [= <- <-]. split; [now right|]. eexists. reflexivity. }
    destruct (JS.is_str (JS.prop d "status") "success").
    { intros [= <- <-]. cbn in C. contradiction. }
    destruct (JS.is_str (JS.prop d "status") "failed");
      intros [= <- <-]; cbn in C; contradiction.
  - intros [= <- <-]. split; [now right|].
    destruct (error_body (message e) "Failed to query status")
      as (m & B & _); [discriminate|].
    exists m. exact B.
Qed.

(** X19.  End to end: a reply of the status endpoint other than 200,
    the 404 of an unknown task id or the 500 of a failed provider query,
    does not end the client's polling: the loop goes on to the next
    reply with its state unchanged. *)
Theorem client_polls_through_status_errors (taskId : string)
  (w w' : Server.World) (r : Server.Response) (data : JSValue)
  (net : list Client.Fetch) (s : Client.AppState) :
  Server.get_api_status provider KEY taskId w = (Ok r, w') ->
  Server.code r <> 200%N ->
  Client.poll_video data (Http.to_fetch r :: net) s
  = Client.poll_video data net s.
Proof.
  intros H C.
  destruct (status_error_body taskId w w' r H C) as (_ & m & R).
  unfold Http.to_fetch. rewrite R. reflexivity.
Qed.

End ClientAndServer.

(* ===================================================================== *)
(** * The further theorems at work on concrete runs *)
(* ===================================================================== *)

Lemma generate_key_guard_witness :
  Server.post_api_generate Scenario.scripted "" Scenario.form Scenario.happy
  = (Ok (Server.mkResponse 500
           (JObj [("error",
                   JStr "MiniMax API key not configured. Please set MINIMAX_API_KEY environment variable.")])),
     Scenario.happy)
  /\ JS.prop (Server.body (Server.get_api_health Scenario.key))
             "apiKeyConfigured" = JBool true.
Proof.
  split.
  - apply (generate_key_guard Scenario.scripted "" Scenario.form
             Scenario.happy). reflexivity.
  - apply (generate_key_guard Scenario.scripted Scenario.key Scenario.form
             Scenario.happy). discriminate.
Defined.

Lemma generate_failure_registers_nothing_witness :
  Scenario.music_down_run
  = (Ok (Scenario.reply_of (fst Scenario.music_down_run)),
     snd Scenario.music_down_run)
  /\ Server.code (Scenario.reply_of (fst Scenario.music_down_run)) = 500%N
  /\ Server.tasks (snd Scenario.music_down_run)
     = Server.tasks Scenario.music_down.
Proof.
  assert (H : Scenario.music_down_run
              = (Ok (Scenario.reply_of (fst Scenario.music_down_run)),
                 snd Scenario.music_down_run)) by (vm_compute; reflexivity).
  assert (C : Server.code (Scenario.reply_of (fst Scenario.music_down_run))
              = 500%N) by (vm_compute; reflexivity).
  split; [exact H|]. split; [exact C|].
  exact (generate_failure_registers_nothing Scenario.scripted Scenario.key
           Scenario.form Scenario.music_down _ _ H C).
Defined.

Lemma generate_failure_reports_rejection_witness :
  Scenario.music_down_run
  = (Ok (Scenario.reply_of (fst Scenario.music_down_run)),
     snd Scenario.music_down_run)
  /\ Server.code (Scenario.reply_of (fst Scenario.music_down_run)) = 500%N
  /\ Scenario.key <> ""
  /\ exists m,
       Server.body (Scenario.reply_of (fst Scenario.music_down_run))
       = JObj [("error", JStr m)].
Proof.
  assert (H : Scenario.music_down_run
              = (Ok (Scenario.reply_of (fst Scenario.music_down_run)),
                 snd Scenario.music_down_run)) by (vm_compute; reflexivity).
  assert (C : Server.code (Scenario.reply_of (fst Scenario.music_down_run))
              = 500%N) by (vm_compute; reflexivity).
  assert (K : Scenario.key <> "") by discriminate.
  split; [exact H|]. split; [exact C|]. split; [exact K|].
  destruct (generate_failure_reports_rejection Scenario.scripted Scenario.key
              Scenario.form Scenario.music_down _ _ H C K)
    as (before & t & endpoint & data & e & m & _ & _ & B & _).
  exists m. exact B.
Defined.


Lemma generate_then_status_finds_task_witness :
  Scenario.happy_run
  = (Ok (Scenario.reply_of (fst Scenario.happy_run)), snd Scenario.happy_run)
  /\ JS.prop (Server.body (Scenario.reply_of (fst Scenario.happy_run)))
             "taskId" = JStr "vid-1"
  /\ exists task,
       Server.tasks_get (JStr "vid-1")
         (Server.tasks (snd Scenario.happy_run)) = Some task
       /\ Server.status task = Server.processing.
Proof.
  assert (H : Scenario.happy_run
              = (Ok (Scenario.reply_of (fst Scenario.happy_run)),
                 snd Scenario.happy_run)) by (vm_compute; reflexivity).
  assert (C : Server.code (Scenario.reply_of (fst Scenario.happy_run))
              = 200%N) by (vm_compute; reflexivity).
  assert (T : JS.prop (Server.body (Scenario.reply_of (fst Scenario.happy_run)))
                      "taskId" = JStr "vid-1") by (vm_compute; reflexivity).
  assert (S : "vid-1" <> "") by discriminate.
  split; [exact H|]. split; [exact T|].
  destruct (generate_then_status_finds_task Scenario.scripted Scenario.key
              Scenario.form Scenario.happy _ _ "vid-1" H C T S)
    as ((task & G & P & _) & _).
  exists task. split; [exact G|exact P].
Defined.

Lemma generate_non_string_id_is_unreachable_witness :
  Scenario.odd_video_run
  = (Ok (Scenario.reply_of (fst Scenario.odd_video_run)),
     snd Scenario.odd_video_run)
  /\ JS.is_string
       (JS.prop (Server.body (Scenario.reply_of (fst Scenario.odd_video_run)))
                "taskId") = false
  /\ JS.prop (Server.body (Scenario.reply_of (fst Scenario.odd_video_run)))
             "status" = JStr "processing"
  /\ forall s : string,
       Server.tasks_get (JStr s) (Server.tasks (snd Scenario.odd_video_run))
       = None.
Proof.
  assert (H : Scenario.odd_video_run
              = (Ok (Scenario.reply_of (fst Scenario.odd_video_run)),
                 snd Scenario.odd_video_run)) by (vm_compute; reflexivity).
  assert (C : Server.code (Scenario.reply_of (fst Scenario.odd_video_run))
              = 200%N) by (vm_compute; reflexivity).
  assert (N : JS.is_string
                (JS.prop
                   (Server.body (Scenario.reply_of (fst Scenario.odd_video_run)))
                   "taskId") = false) by (vm_compute; reflexivity).
  split; [exact H|]. split; [exact N|]. split; [vm_compute; reflexivity|].
  destruct (generate_non_string_id_is_unreachable Scenario.scripted
              Scenario.key Scenario.form Scenario.odd_video _ _ H C N)
    as [U _].
  intros s. rewrite U. reflexivity.
Defined.


Lemma status_failed_marks_task_witness :
  Server.tasks_get (JStr "t1") (Server.tasks Scenario.failing)
  = Some (Scenario.a_task Server.processing)
  /\ Server.tasks_get (JStr "t1")
       (Server.tasks
          (snd (Server.get_api_status Scenario.scripted Scenario.key "t1"
                  Scenario.failing)))
     = Some (Scenario.a_task Server.failed).
Proof.
  split; [reflexivity|].
  destruct (status_failed_marks_task Scenario.scripted Scenario.key "t1"
              Scenario.failing (Scenario.a_task Server.processing)
              (JObj [("status", JStr "failed")]) 120%N []
              eq_refl eq_refl eq_refl) as (_ & G & _).
  exact G.
Defined.

Lemma status_provider_error_is_500_witness :
  Server.tasks_get (JStr "t1") (Server.tasks Scenario.outage)
  = Some (Scenario.a_task Server.processing)
  /\ exists m,
       fst (Server.get_api_status Scenario.scripted Scenario.key "t1"
              Scenario.outage)
       = Ok (Server.mkResponse 500 (JObj [("error", JStr m)]))
       /\ Server.tasks
            (snd (Server.get_api_status Scenario.scripted Scenario.key "t1"
                    Scenario.outage))
          = Server.tasks Scenario.outage.
Proof.
  split; [reflexivity|].
  destruct (status_provider_error_is_500 Scenario.scripted Scenario.key "t1"
              Scenario.outage (Scenario.a_task Server.processing)
              (fst Scenario.refused) 80%N [] eq_refl eq_refl
              (or_introl (ex_intro _ _ eq_refl)))
    as (m & R & _ & _ & T).
  exists m. split; [exact R|exact T].
Defined.

Lemma polls_keep_generation_witness :
  Server.tasks_get (JStr "t1") (Server.tasks Scenario.flipping)
  = Some (Scenario.a_task Server.processing)
  /\ exists t',
       Server.tasks_get (JStr "t1") (Server.tasks Scenario.flipping_twice)
       = Some t'
       /\ Server.lyrics t' = JStr "la la".
Proof.
  split; [reflexivity|].
  destruct (polls_keep_generation Scenario.scripted Scenario.key
              ["t1"; "t1"] Scenario.flipping (JStr "t1")
              (Scenario.a_task Server.processing) eq_refl)
    as (t' & G & _ & _ & _ & L & _).
  exists t'. split; [exact G|exact L].
Defined.


Lemma handleGenerate_ends_cleanly_witness :
  Client.image Scenario.ready = Some (Client.mkFile "cover.jpg" 2048)
  /\ Client.blank (Client.theme Scenario.ready) = false
  /\ Client.isGenerating
       (Client.handleGenerate Scenario.ready Scenario.offline) = false
  /\ Client.error_message
       (Client.handleGenerate Scenario.ready Scenario.offline)
     = Some "Failed to fetch".
Proof.
  split; [reflexivity|]. split; [reflexivity|].
  exact (handleGenerate_ends_cleanly Scenario.ready Scenario.offline
           (Client.mkFile "cover.jpg" 2048) eq_refl eq_refl).
Defined.

Lemma handleGenerate_success_witness :
  Client.image Scenario.ready = Some (Client.mkFile "cover.jpg" 2048)
  /\ forallb Client.keeps_polling Scenario.still_rendering = true
  /\ map Client.status
       (Client.progress
          (Client.handleGenerate Scenario.ready
             (Client.Reply true (Ok Scenario.generated_reply)
                :: Scenario.still_rendering
                ++ [Client.Reply true (Ok Scenario.rendered)])))
     = [Client.completed; Client.completed; Client.completed;
        Client.completed].
Proof.
  split; [reflexivity|]. split; [reflexivity|].
  destruct (handleGenerate_success Scenario.ready
              (Client.mkFile "cover.jpg" 2048) Scenario.generated_reply
              Scenario.rendered Scenario.still_rendering true
              eq_refl eq_refl eq_refl eq_refl eq_refl eq_refl) as (P & _).
  exact P.
Defined.

Lemma handleGenerate_completed_reply_stalls_witness :
  JS.nullish Scenario.completed_reply = false
  /\ JS.is_str (JS.prop Scenario.completed_reply "status") "processing"
     = false
  /\ map Client.status
       (Client.progress
          (Client.handleGenerate Scenario.ready
             [Client.Reply true (Ok Scenario.completed_reply)]))
     = [Client.completed; Client.processing; Client.pending; Client.pending].
Proof.
  split; [reflexivity|]. split; [reflexivity|].
  destruct (handleGenerate_completed_reply_stalls Scenario.ready
              (Client.mkFile "cover.jpg" 2048) Scenario.completed_reply []
              eq_refl eq_refl eq_refl eq_refl eq_refl) as (P & _).
  exact P.
Defined.

Lemma client_shows_server_error_witness :
  Scenario.music_down_run
  = (Ok (Scenario.reply_of (fst Scenario.music_down_run)),
     snd Scenario.music_down_run)
  /\ Client.error_message
       (Client.handleGenerate Scenario.ready
          [Http.to_fetch (Scenario.reply_of (fst Scenario.music_down_run))])
     = Some "Request failed with status code 500".
Proof.
  assert (H : Scenario.music_down_run
              = (Ok (Scenario.reply_of (fst Scenario.music_down_run)),
                 snd Scenario.music_down_run)) by (vm_compute; reflexivity).
  assert (C : Server.code (Scenario.reply_of (fst Scenario.music_down_run))
              = 500%N) by (vm_compute; reflexivity).
  split; [exact H|].
  destruct (client_shows_server_error Scenario.scripted Scenario.key
              Scenario.form Scenario.music_down _ _ Scenario.ready
              (Client.mkFile "cover.jpg" 2048) [] H C eq_refl eq_refl)
    as (m & B & _ & E & _).
  rewrite E. f_equal.
  assert (B' : Server.body (Scenario.reply_of (fst Scenario.music_down_run))
               = JObj [("error", JStr "Request failed with status code 500")])
    by (vm_compute; reflexivity).
  rewrite B' in B. now injection B as <-.
Defined.

Lemma client_polls_through_status_errors_witness :
  Server.code
    (Scenario.reply_of
       (fst (Server.get_api_status Scenario.scripted Scenario.key "nope"
               Scenario.done))) <> 200%N
  /\ Client.poll_video Scenario.generated_reply
       [Http.to_fetch
          (Scenario.reply_of
             (fst (Server.get_api_status Scenario.scripted Scenario.key
                     "nope" Scenario.done)))]
       Scenario.ready
     = Client.Awaiting Scenario.ready.
Proof.
  assert (C : Server.code
                (Scenario.reply_of
                   (fst (Server.get_api_status Scenario.scripted Scenario.key
                           "nope" Scenario.done))) <> 200%N)
    by (vm_compute; discriminate).
  split; [exact C|].
  rewrite (client_polls_through_status_errors Scenario.scripted Scenario.key
             "nope" Scenario.done Scenario.done
             (Scenario.reply_of
                (fst (Server.get_api_status Scenario.scripted Scenario.key
                        "nope" Scenario.done)))
             Scenario.generated_reply [] Scenario.ready eq_refl C).
  reflexivity.
Defined.
